(** * Wiki-Synth: usage accounting and admission control

    A shallow embedding of the quota ledger of the Wikipedia summary API:
    the [Pricing] catalog document and its volume discount
    (src/models/Pricing.js), the [User] document with its monthly counter
    (src/models/User.js), the [ApiCall] usage event (src/models/ApiCall.js),
    the plan-based rate-limit middleware (src/middleware/rateLimit.js) and
    the two summary handlers [getSummary] and [getBatchSummaries] of the
    controllers, chained as in the summary routes; and, next to the ledger,
    the batch loop of the summary service, the account lock with the login
    handler, the authentication middleware and the usage statistics of a
    user ([getUsageStats]).

    Conventions.
    - JavaScript numbers that hold counters, limits and epoch milliseconds
      are integers in the program and are modelled as [Z].
    - Prices are modelled as exact rationals [Q]; the statements about them
      use [Qeq] and [Qle].  Module [Binary64] repeats the price function on
      IEEE 754 doubles for the one literal value quoted from the scenarios.
    - A Mongoose document is a record; [save] copies the in-memory document
      into the store.  Every store access and the external summarisation
      call can throw; which ones do is an input of a request ([faults]).
    - The external summarisation of a single request returns or throws.
      The batch service catches the failure of every item, so its call
      does not throw; it does not settle when its loop does not end, and
      the request then stays unanswered.
    - The clock of a request starts at [now] and advances only while the
      external summarisation runs.
    - Requests are served one after the other; the interleaving of
      concurrent requests is not modelled.
    - Logging and the payload of JSON responses beyond status and code are
      left out. *)

From stdpp Require Import gmap strings list.
From Stdlib Require Import ZArith QArith Lia Floats.

Set Warnings "-inexact-float".

Local Open Scope string_scope.
Local Open Scope Z_scope.

(** ** Pricing catalog (models/Pricing.js) *)

Module Pricing.

(** [limits] sub-document. *)
Record Limits := mkLimits {
  monthlyCalls : Z;
  dailyCalls : Z;
  requestsPerMinute : Z;
  batchSize : Z
}.

(** One catalog document.  [features] holds the boolean capability flags
    by name. *)
Record t := mk {
  plan : string;
  pricePerCall : Q;
  limits : Limits;
  features : gmap string bool;
  isActive : bool
}.

(** [hasFeature(featureName)]: [this.features[featureName] === true]. *)
Definition hasFeature (p : t) (featureName : string) : bool :=
  match features p !! featureName with
  | Some true => true
  | _ => false
  end.

(** [getEffectivePrice(callCount)]: 10% off above 10000 calls, 5% off
    above 1000 calls, the list price otherwise. *)
Definition getEffectivePrice (p : t) (callCount : Z) : Q :=
  let effectivePrice := pricePerCall p in
  if 10000 <? callCount then (effectivePrice * 0.9)%Q
  else if 1000 <? callCount then (effectivePrice * 0.95)%Q
  else effectivePrice.

(** [Pricing.getPlan(planName)]: [findOne({plan, isActive: true})] over the
    catalog collection. *)
Definition getPlan (catalog : list t) (planName : string) : option t :=
  List.find (fun p => bool_decide (plan p = planName) && isActive p) catalog.

End Pricing.

(** [getEffectivePrice] once more, on binary64 numbers. *)
Module Binary64.

Definition getEffectivePrice (pricePerCall : float) (callCount : Z) : float :=
  let effectivePrice := pricePerCall in
  if 10000 <? callCount then (effectivePrice * 0.9)%float
  else if 1000 <? callCount then (effectivePrice * 0.95)%float
  else effectivePrice.

End Binary64.

(** ** Discount tiers as the specification words them *)

Module Tiers.

(** A tier is a pair (call-count threshold, multiplier). *)
Definition tier : Type := Z * Q.

(** The tiers written into [getEffectivePrice]. *)
Definition codeTiers : list tier := [(1000, 0.95%Q); (10000, 0.9%Q)].

(** Keep the better of the best tier so far and the next tier. *)
Definition pick (reaches : Z -> Z -> bool) (k : Z) (best : option tier)
  (t : tier) : option tier :=
  if reaches (fst t) k then
    match best with
    | Some b => if fst b <? fst t then Some t else best
    | None => Some t
    end
  else best.

(** The highest-threshold tier that [reaches] accepts for count [k]. *)
Definition bestTier (reaches : Z -> Z -> bool) (tiers : list tier) (k : Z)
  : option tier :=
  fold_left (pick reaches k) tiers None.

Definition tierPrice (reaches : Z -> Z -> bool) (tiers : list tier)
  (pricePerCall : Q) (k : Z) : Q :=
  match bestTier reaches tiers k with
  | Some t => (pricePerCall * snd t)%Q
  | None => pricePerCall
  end.

(** Specification wording: a tier applies when its threshold is less than
    or equal to the count. *)
Definition spec_price : list tier -> Q -> Z -> Q := tierPrice Z.leb.

(** Program behaviour: a tier applies when its threshold is strictly below
    the count. *)
Definition strict_price : list tier -> Q -> Z -> Q := tierPrice Z.ltb.

End Tiers.

(** ** User document (models/User.js) *)

Module User.

(** [usage] sub-document; dates are epoch milliseconds. *)
Record Usage := mkUsage {
  totalCalls : Z;
  monthlyReset : Z;
  monthlyCalls : Z;
  lastCallAt : option Z
}.

Record t := mk {
  id : Z;
  role : string;
  plan : string;            (* subscription.plan *)
  usage : Usage;
  totalSpent : Q
}.

(** What [getUsageLimits] returns, read through its properties [monthly]
    and [daily]; a property the returned object does not have is [None]. *)
Record UsageLimits := mkUsageLimits { monthly : option Z; daily : option Z }.

Definition freeLimits : UsageLimits := mkUsageLimits (Some 100) (Some 10).

(** The object literal [limits] of [getUsageLimits], keyed by plan name. *)
Definition limitsTable : gmap string UsageLimits :=
  {[ "free" := freeLimits;
     "basic" := mkUsageLimits (Some 1000) (Some 100);
     "premium" := mkUsageLimits (Some 10000) (Some 1000);
     "enterprise" := mkUsageLimits (Some 100000) (Some 10000) ]}.

(** The property names every object literal inherits from
    [Object.prototype]; looking one of them up in [limits] yields a function
    or object, which is truthy and has neither [monthly] nor [daily]. *)
Definition inheritedKeys : list string :=
  [ "constructor"; "__proto__"; "hasOwnProperty"; "isPrototypeOf";
    "propertyIsEnumerable"; "toString"; "toLocaleString"; "valueOf";
    "__defineGetter__"; "__defineSetter__"; "__lookupGetter__";
    "__lookupSetter__" ].

(** [getUsageLimits()]: [limits[this.subscription.plan] || limits.free]. *)
Definition getUsageLimits (u : t) : UsageLimits :=
  match limitsTable !! plan u with
  | Some l => l
  | None =>
      if bool_decide (plan u ∈ inheritedKeys) then mkUsageLimits None None
      else freeLimits
  end.

(** [canMakeApiCall()]: [this.usage.monthlyCalls < limits.monthly]; a
    comparison with [undefined] is false. *)
Definition canMakeApiCall (u : t) : bool :=
  match monthly (getUsageLimits u) with
  | Some m => monthlyCalls (usage u) <? m
  | None => false
  end.

Definition setUsage (u : t) (g : Usage) : t :=
  mk (id u) (role u) (plan u) g (totalSpent u).

Section Calendar.

(** [addMonth t]: the instant [Date.prototype.setMonth(getMonth() + 1)]
    yields from [t]; calendar arithmetic of the runtime. *)
Variable addMonth : Z -> Z.

(** Virtual [shouldResetMonthlyUsage] read at instant [now]. *)
Definition shouldResetMonthlyUsage (now : Z) (u : t) : bool :=
  addMonth (monthlyReset (usage u)) <=? now.

(** The assignments of [checkMonthlyReset()] when the reset is due:
    [usage.monthlyCalls = 0; usage.monthlyReset = new Date()]. *)
Definition clearMonthly (now : Z) (u : t) : t :=
  setUsage u (mkUsage (totalCalls (usage u)) now 0 (lastCallAt (usage u))).

End Calendar.

(** The in-memory effect of [incrementUsage(cost)]; the caller saves. *)
Definition bumpUsage (now : Z) (cost : Q) (u : t) : t :=
  mk (id u) (role u) (plan u)
     (mkUsage (totalCalls (usage u) + 1) (monthlyReset (usage u))
              (monthlyCalls (usage u) + 1) (Some now))
     (totalSpent u + cost)%Q.

End User.

(** ** Usage event (models/ApiCall.js) *)

Module ApiCall.

Inductive ResponseStatus := success | error | timeout | rate_limited.

Record Tokens := mkTokens { prompt : Z; completion : Z; total : Z }.

Record t := mk {
  user : Z;
  endpoint : string;
  cost : Q;
  responseStatus : ResponseStatus;
  responseTime : option Z;
  responseSize : option Z;
  tokensUsed : Tokens;
  errorMessage : option string;
  errorCode : option string;
  timestamp : Z;
  completedAt : option Z
}.

(** A thrown JavaScript error: [message] and the optional [code]. *)
Record JsError := mkError { message : string; code : option string }.

(** Argument of [markCompleted]; an absent property is [None]. *)
Record ResponseData := mkResponseData {
  rd_responseTime : option Z;
  rd_tokensUsed : option Tokens;
  rd_responseSize : option Z
}.

(** [new ApiCall({user, endpoint, cost, ...})] with the schema defaults:
    [responseStatus] is 'success', [tokensUsed] is all zero, [timestamp]
    is [Date.now], [completedAt] is unset. *)
Definition create (now : Z) (uid : Z) (ep : string) (c : Q) : t :=
  mk uid ep c success None None (mkTokens 0 0 0) None None now None.

(** [if (x) field = x] for a numeric property: 0 and absent are falsy. *)
Definition truthyOr (x : option Z) (old : option Z) : option Z :=
  match x with
  | Some v => if v =? 0 then old else Some v
  | None => old
  end.

(** In-memory effect of [markCompleted(responseData)]. *)
Definition markCompleted (now : Z) (rd : ResponseData) (c : t) : t :=
  mk (user c) (endpoint c) (cost c) success
     (truthyOr (rd_responseTime rd) (responseTime c))
     (truthyOr (rd_responseSize rd) (responseSize c))
     (match rd_tokensUsed rd with Some tk => tk | None => tokensUsed c end)
     (errorMessage c) (errorCode c) (timestamp c) (Some now).

(** In-memory effect of [markFailed(error)]. *)
Definition markFailed (now : Z) (e : JsError) (c : t) : t :=
  mk (user c) (endpoint c) (cost c) error
     (responseTime c) (responseSize c) (tokensUsed c)
     (Some (message e)) (code e) (timestamp c) (Some now).

(** The [pre('save')] hook: stamps [completedAt] when [responseStatus] was
    modified to 'success' and no completion time is set. *)
Definition preSave (now : Z) (statusModified : bool) (c : t) : t :=
  match statusModified, responseStatus c, completedAt c with
  | true, success, None =>
      mk (user c) (endpoint c) (cost c) (responseStatus c) (responseTime c)
         (responseSize c) (tokensUsed c) (errorMessage c) (errorCode c)
         (timestamp c) (Some now)
  | _, _, _ => c
  end.

(** Lifecycle state in the vocabulary of the specification, read off an
    event: no completion time is pending, otherwise the status decides. *)
Inductive State := pending | completed | failed.

Definition state (c : t) : State :=
  match completedAt c with
  | None => pending
  | Some _ => match responseStatus c with success => completed | _ => failed end
  end.

End ApiCall.

(** ** The batch summariser ([generateBatchSummaries] of
    services/wikipediaService.js, src/unnamed/part_001) *)

Module Summarizer.

(** One entry of the array the service returns: the summary object of an
    item, whose [metadata] carries no [tokensUsed], or the [{error, input}]
    object the service puts in place of an item whose summarisation threw. *)
Inductive ItemResult :=
| Summarised
| ItemError.

(** A relative index of [Array.prototype.slice] on an array of length
    [len]: a negative index counts from the end, and both ends are clamped
    to the array. *)
Definition sliceIndex (len k : Z) : Z :=
  if k <? 0 then Z.max (len + k) 0 else Z.min k len.

(** [l.slice(start, stop)]. *)
Definition slice {A} (l : list A) (start stop : Z) : list A :=
  let len := Z.of_nat (length l) in
  let k := sliceIndex len start in
  let final := sliceIndex len stop in
  take (Z.to_nat (final - k)) (drop (Z.to_nat k) l).

Section Batch.

Variable fails : nat -> bool.     (* the items whose summarisation throws *)
Variable items : list string.
Variable batchSize : Z.

(** The [try]/[catch] around one item: a throw becomes an error entry. *)
Definition summariseItem (position : nat) : ItemResult :=
  if fails position then ItemError else Summarised.

(** The loop [for (let i = 0; i < items.length; i += batchSize)], at most
    [fuel] iterations of it: each one summarises the slice
    [items.slice(i, i + batchSize)], appends the results, and waits a second
    when [i + batchSize < items.length].  The result is the array and the
    number of waits, or [None] when the loop has not ended within [fuel]
    iterations. *)
Fixpoint loop (fuel : nat) (i : Z) (results : list ItemResult) (waits : Z)
  : option (list ItemResult * Z) :=
  match fuel with
  | O => None
  | S fuel =>
      let len := Z.of_nat (length items) in
      if i <? len then
        let batch := slice items i (i + batchSize) in
        let position := Z.to_nat (sliceIndex len i) in
        let batchResults :=
          imap (fun k _ => summariseItem (position + k)) batch in
        loop fuel (i + batchSize) (results ++ batchResults)
             (if i + batchSize <? len then waits + 1 else waits)
      else Some (results, waits)
  end.

End Batch.

(** [generateBatchSummaries(items, options)], with [batchSize] the value of
    [options.batchSize] when it is an integer and 5 when it is absent.  One
    iteration more than there are items is enough for every loop that ends
    (the loop either advances by at least one item or never ends), so [None]
    stands for a call that never settles. *)
Definition generateBatchSummaries (fails : nat -> bool) (items : list string)
  (optionsBatchSize : option Z) : option (list ItemResult * Z) :=
  loop fails items (default 5 optionsBatchSize) (S (length items)) 0 [] 0.

End Summarizer.

(** ** Store, request context and effects *)

(** Places where the middleware ([Mw]) or a handler ([Ct]) awaits the store
    or the external summariser; each can reject. *)
Inductive Site :=
| MwGetPlan | MwSaveReset | MwAggDaily | MwAggMinute
| CtSaveReset | CtGetPlan | CtSaveCall | CtWork
| CtSaveCompleted | CtSaveUsage | CtSaveFailed.

(** The collections. *)
Record Db := mkDb {
  users : gmap Z User.t;
  apicalls : list ApiCall.t;
  pricings : list Pricing.t
}.

(** What the external summariser hands back, already measured by the
    handler: estimated tokens and the byte size of the JSON result. *)
Record WorkResult := mkWork {
  workTokens : ApiCall.Tokens;
  workSize : Z
}.

(** Inputs of one request. *)
Record Env := mkEnv {
  now : Z;                       (* instant at which the request arrives *)
  tzOffset : Z;                  (* local time minus UTC, milliseconds *)
  faults : Site -> bool;         (* the awaits that reject *)
  validBody : bool;              (* validationResult(req).isEmpty() *)
  title : option string;
  content : option string;
  items : list string;           (* body.items of a batch request *)
  optionsBatchSize : option Z;   (* body.options.batchSize, when an integer *)
  itemFails : nat -> bool;       (* batch items whose summarisation throws *)
  elapsed : Z;                   (* duration of the external work *)
  work : WorkResult
}.

(** Mutable state of one request: the store, the in-memory [req.user], the
    handler's local [apiCall] with its position in the collection once
    inserted, the clock, the awaits performed so far and the rate-limit
    response headers. *)
Record Ctx := mkCtx {
  db : Db;
  reqUser : User.t;
  apiCall : option ApiCall.t;
  apiCallSlot : option nat;
  clock : Z;
  trace : list Site;
  headers : option (Z * Z * Z)   (* remaining monthly, daily, per minute *)
}.

(** How a middleware or handler leaves: [next()], a JSON response,
    [next(error)], a rejected promise nobody handles, or not at all, when
    it awaits something that never settles.  A JSON response is kept as its
    status and a tag: its [code], or its [error] text when it has no code
    (without the number interpolated into the batch-size text), or "success"
    for the 200 answer. *)
Inductive Outcome :=
| Next
| Json (status : Z) (tag : string)
| NextError (e : ApiCall.JsError)
| Rejected (e : ApiCall.JsError)
| Unanswered.

Module Eff.

Inductive Res (A : Type) :=
| Val (a : A)
| Thrown (e : ApiCall.JsError).
Arguments Val {A} a.
Arguments Thrown {A} e.

(** A computation may change the context and then return or throw; what it
    changed before throwing stays changed. *)
Definition M (A : Type) : Type := Ctx -> Res A * Ctx.

Definition ret {A} (a : A) : M A := fun c => (Val a, c).

Definition bind {A B} (m : M A) (k : A -> M B) : M B :=
  fun c =>
    match m c with
    | (Val a, c') => k a c'
    | (Thrown e, c') => (Thrown e, c')
    end.

Definition throw {A} (e : ApiCall.JsError) : M A := fun c => (Thrown e, c).

(** [try { m } catch (e) { h e }]. *)
Definition tryCatch {A} (m : M A) (h : ApiCall.JsError -> M A) : M A :=
  fun c =>
    match m c with
    | (Val a, c') => (Val a, c')
    | (Thrown e, c') => h e c'
    end.

Definition get : M Ctx := fun c => (Val c, c).

Definition modify (f : Ctx -> Ctx) : M unit := fun c => (Val tt, f c).

End Eff.

Import Eff.

Declare Scope eff_scope.
Delimit Scope eff_scope with eff.
Notation "x <- m ;; k" := (bind m (fun x => k))
  (at level 100, m at next level, right associativity) : eff_scope.
Notation "m ;;; k" := (bind m (fun _ => k))
  (at level 100, right associativity) : eff_scope.

Definition setDb (d : Db) (c : Ctx) : Ctx :=
  mkCtx d (reqUser c) (apiCall c) (apiCallSlot c) (clock c) (trace c) (headers c).
Definition setReqUser (u : User.t) (c : Ctx) : Ctx :=
  mkCtx (db c) u (apiCall c) (apiCallSlot c) (clock c) (trace c) (headers c).
Definition setApiCall (a : option ApiCall.t) (c : Ctx) : Ctx :=
  mkCtx (db c) (reqUser c) a (apiCallSlot c) (clock c) (trace c) (headers c).
Definition setApiCallSlot (s : option nat) (c : Ctx) : Ctx :=
  mkCtx (db c) (reqUser c) (apiCall c) s (clock c) (trace c) (headers c).
Definition setClock (t : Z) (c : Ctx) : Ctx :=
  mkCtx (db c) (reqUser c) (apiCall c) (apiCallSlot c) t (trace c) (headers c).
Definition logSite (s : Site) (c : Ctx) : Ctx :=
  mkCtx (db c) (reqUser c) (apiCall c) (apiCallSlot c) (clock c)
        (trace c ++ [s]) (headers c).
Definition setHeaders (h : option (Z * Z * Z)) (c : Ctx) : Ctx :=
  mkCtx (db c) (reqUser c) (apiCall c) (apiCallSlot c) (clock c) (trace c) h.

(** The error a rejected store or network await carries. *)
Definition awaitError : ApiCall.JsError :=
  ApiCall.mkError "operation failed" None.

(** The error [new NotFoundError('Pricing plan not found')]. *)
Definition planNotFound : ApiCall.JsError :=
  ApiCall.mkError "Pricing plan not found" (Some "NOT_FOUND_ERROR").

Section Handlers.

Variable addMonth : Z -> Z.
Variable env : Env.

Local Open Scope eff_scope.

(** An await at [site]: recorded in the trace, it rejects when the request
    says so and otherwise runs [m]. *)
Definition await {A} (site : Site) (m : M A) : M A :=
  modify (logSite site) ;;;
  if faults env site then throw awaitError else m.

(** [user.save()]: write the in-memory document over the stored one. *)
Definition saveUser (site : Site) : M unit :=
  await site
    (modify (fun c =>
       setDb (mkDb (<[User.id (reqUser c) := reqUser c]> (users (db c)))
                   (apicalls (db c)) (pricings (db c))) c)).

(** [Pricing.getPlan(req.user.subscription.plan)]. *)
Definition getPlan (site : Site) : M (option Pricing.t) :=
  await site
    (c <- get ;;
     ret (Pricing.getPlan (pricings (db c)) (User.plan (reqUser c)))).

(** [checkMonthlyReset()]. *)
Definition checkMonthlyReset (site : Site) : M unit :=
  c <- get ;;
  if User.shouldResetMonthlyUsage addMonth (clock c) (reqUser c) then
    modify (setReqUser (User.clearMonthly (clock c) (reqUser c))) ;;;
    saveUser site
  else ret tt.

(** [incrementUsage(cost)]. *)
Definition incrementUsage (site : Site) (cost : Q) : M unit :=
  modify (fun c => setReqUser (User.bumpUsage (clock c) cost (reqUser c)) c) ;;;
  saveUser site.

(** The aggregation of the middleware: match the user by [_id], look up
    the events of that user with [timestamp >= since], project their
    number.  One result row when the user exists, none otherwise. *)
Definition countCallsSince (d : Db) (uid : Z) (since : Z) : list Z :=
  match users d !! uid with
  | Some _ =>
      [Z.of_nat (length (List.filter
         (fun a => (ApiCall.user a =? uid) && (since <=? ApiCall.timestamp a))
         (apicalls d)))]
  | None => []
  end.

(** [rows[0]?.count || 0]. *)
Definition firstCount (rows : list Z) : Z :=
  match rows with
  | n :: _ => n
  | [] => 0
  end.

(** [await User.aggregate([...])] followed by the read of the count. *)
Definition aggregate (site : Site) (since : Z) : M Z :=
  await site
    (c <- get ;;
     ret (firstCount (countCallsSince (db c) (User.id (reqUser c)) since))).

Definition msPerDay : Z := 24 * 60 * 60 * 1000.

(** [today.setHours(0, 0, 0, 0)]: local midnight of the day of [t], for a
    local time that is UTC plus [tzOffset] all day. *)
Definition startOfDay (t : Z) : Z :=
  t - (t + tzOffset env) mod msPerDay.

(** The plan-based rate-limit middleware (middleware/rateLimit.js). *)
Definition rateLimit : M Outcome :=
  tryCatch
    (c <- get ;;
     if bool_decide (User.role (reqUser c) = "admin") then ret Next
     else
       pricing <- getPlan MwGetPlan ;;
       match pricing with
       | None => ret (Json 500 "PRICING_ERROR")
       | Some pricing =>
         checkMonthlyReset MwSaveReset ;;;
         c <- get ;;
         let monthlyLimit := Pricing.monthlyCalls (Pricing.limits pricing) in
         let currentUsage := User.monthlyCalls (User.usage (reqUser c)) in
         if monthlyLimit <=? currentUsage then
           ret (Json 429 "MONTHLY_LIMIT_EXCEEDED")
         else
           let dailyLimit := Pricing.dailyCalls (Pricing.limits pricing) in
           let today := startOfDay (clock c) in
           dailyUsage <- aggregate MwAggDaily today ;;
           if dailyLimit <=? dailyUsage then
             ret (Json 429 "DAILY_LIMIT_EXCEEDED")
           else
             let perMinuteLimit :=
               Pricing.requestsPerMinute (Pricing.limits pricing) in
             let oneMinuteAgo := clock c - 60 * 1000 in
             recentCallCount <- aggregate MwAggMinute oneMinuteAgo ;;
             if perMinuteLimit <=? recentCallCount then
               ret (Json 429 "RATE_LIMIT_EXCEEDED")
             else
               modify (setHeaders
                 (Some (monthlyLimit - currentUsage,
                        dailyLimit - dailyUsage,
                        perMinuteLimit - recentCallCount))) ;;;
               ret Next
       end)
    (fun _ =>
       (* If rate limiting fails, allow the request but log the error *)
       ret Next).

(** The event collection after [apiCall.save()]: the document is inserted
    on its first save and written over its stored copy afterwards. *)
Definition writtenEvents (c : Ctx) : list ApiCall.t :=
  match apiCall c, apiCallSlot c with
  | None, _ => apicalls (db c)
  | Some a, Some i => <[i := a]> (apicalls (db c))
  | Some a, None => apicalls (db c) ++ [a]
  end.

(** Where the saved document sits in the collection. *)
Definition writtenSlot (c : Ctx) : option nat :=
  match apiCall c, apiCallSlot c with
  | Some a, None => Some (length (apicalls (db c)))
  | _, s => s
  end.

(** The write of [apiCall.save()]. *)
Definition writeApiCall (c : Ctx) : Ctx :=
  setApiCallSlot (writtenSlot c)
    (setDb (mkDb (users (db c)) (writtenEvents c) (pricings (db c))) c).

(** [apiCall.save()]: the pre-save hook runs on the in-memory document, then
    the write is awaited. *)
Definition saveApiCall (site : Site) (statusModified : bool) : M unit :=
  modify (fun c =>
    setApiCall (ApiCall.preSave (clock c) statusModified <$> apiCall c) c) ;;;
  await site (modify writeApiCall).

(** [apiCall.markCompleted(responseData)]. *)
Definition markCompleted (site : Site) (rd : ApiCall.ResponseData) : M unit :=
  modify (fun c =>
    setApiCall (ApiCall.markCompleted (clock c) rd <$> apiCall c) c) ;;;
  saveApiCall site true.

(** [apiCall.markFailed(error)]. *)
Definition markFailed (site : Site) (e : ApiCall.JsError) : M unit :=
  modify (fun c =>
    setApiCall (ApiCall.markFailed (clock c) e <$> apiCall c) c) ;;;
  saveApiCall site true.

(** The external summarisation of a single request ([getWikipediaSummary]
    or [generateCustomSummary]): time passes, then it returns or throws. *)
Definition summarise : M WorkResult :=
  modify (fun c => setClock (clock c + elapsed env) c) ;;;
  await CtWork (ret (work env)).

(** A call that settles when [m] does. *)
Definition settled {A} (m : M A) : M (option A) :=
  a <- m ;; ret (Some a).

(** [Math.ceil(n * tenths / 10)] on integers. *)
Definition ceilTenths (tenths n : Z) : Z := (n * tenths + 9) / 10.

(** The token count the batch handler derives from the results: it adds
    [result.metadata.tokensUsed || 0] over the entries that have a
    [metadata], and splits the total 60/40. *)
Definition batchTokens (results : list Summarizer.ItemResult) : ApiCall.Tokens :=
  let totalTokens :=
    fold_left (fun acc result =>
                 match result with
                 | Summarizer.Summarised => acc + 0
                 | Summarizer.ItemError => acc
                 end) results 0 in
  ApiCall.mkTokens (ceilTenths 6 totalTokens) (ceilTenths 4 totalTokens)
                   totalTokens.

(** The work of a batch request, [await generateBatchSummaries(...)]: the
    service catches the failure of every item, so the call does not throw;
    it takes the time of the external calls and one second per wait; and it
    never settles when the loop of the service never ends ([None]). *)
Definition summariseBatch : M (option WorkResult) :=
  modify (logSite CtWork) ;;;
  match Summarizer.generateBatchSummaries (itemFails env) (items env)
          (optionsBatchSize env) with
  | None => ret None
  | Some (results, waits) =>
      modify (fun c => setClock (clock c + elapsed env + 1000 * waits) c) ;;;
      ret (Some (mkWork (batchTokens results) (workSize (work env))))
  end.

(** JavaScript truthiness of an optional string. *)
Definition truthy (s : option string) : bool :=
  match s with
  | Some v => negb (bool_decide (v = ""))
  | None => false
  end.

(** The shared [catch] block of both handlers: mark the event failed when
    one was created, then [next(error)]. *)
Definition onError (e : ApiCall.JsError) : M Outcome :=
  c <- get ;;
  (match apiCall c with
   | Some _ => markFailed CtSaveFailed e
   | None => ret tt
   end) ;;;
  ret (NextError e).

(** The part both handlers share once the cost is known: create and save
    the event, await the work of the endpoint ([worker]), close the event,
    charge the user, answer.  When the work never settles, nothing after the
    await runs and the request stays unanswered. *)
Definition recordAndWork (ep : string) (cost : Q)
  (worker : M (option WorkResult)) : M Outcome :=
  modify (fun c =>
    setApiCall
      (Some (ApiCall.create (clock c) (User.id (reqUser c)) ep cost)) c) ;;;
  saveApiCall CtSaveCall false ;;;
  c0 <- get ;;
  outcome <- worker ;;
  match outcome with
  | None => ret Unanswered
  | Some result =>
    c1 <- get ;;
    let responseTime := clock c1 - clock c0 in
    markCompleted CtSaveCompleted
      (ApiCall.mkResponseData (Some responseTime) (Some (workTokens result))
                              (Some (workSize result))) ;;;
    incrementUsage CtSaveUsage cost ;;;
    ret (Json 200 "success")
  end.

(** [getSummary], POST /api/summary. *)
Definition getSummary : M Outcome :=
  tryCatch
    (if negb (validBody env) then ret (Json 400 "VALIDATION_ERROR")
     else if negb (truthy (title env)) && negb (truthy (content env)) then
       ret (Json 400 "Either title (for Wikipedia summary) or content (for custom summary) is required")
     else
       checkMonthlyReset CtSaveReset ;;;
       c <- get ;;
       if negb (User.canMakeApiCall (reqUser c)) then
         ret (Json 429 "Monthly API limit exceeded")
       else
         pricing <- getPlan CtGetPlan ;;
         match pricing with
         | None => throw planNotFound
         | Some pricing =>
           let cost :=
             Pricing.getEffectivePrice pricing
               (User.monthlyCalls (User.usage (reqUser c))) in
           recordAndWork "/api/summary" cost (settled summarise)
         end)
    onError.

(** [getBatchSummaries], POST /api/summary/batch. *)
Definition getBatchSummaries : M Outcome :=
  tryCatch
    (if negb (validBody env) then ret (Json 400 "VALIDATION_ERROR")
     else
       let n := Z.of_nat (length (items env)) in
       pricing <- getPlan CtGetPlan ;;
       match pricing with
       | None => ret (Json 403 "Batch processing not available in your current plan")
       | Some pricing =>
         if negb (Pricing.hasFeature pricing "batchProcessing") then
           ret (Json 403 "Batch processing not available in your current plan")
         else if Pricing.batchSize (Pricing.limits pricing) <? n then
           ret (Json 400 "Batch size exceeds limit")
         else
           checkMonthlyReset CtSaveReset ;;;
           c <- get ;;
           let remainingCalls :=
             Pricing.monthlyCalls (Pricing.limits pricing)
             - User.monthlyCalls (User.usage (reqUser c)) in
           if remainingCalls <? n then
             ret (Json 429 "Insufficient API calls remaining for batch processing")
           else
             let cost :=
               (Pricing.getEffectivePrice pricing
                  (User.monthlyCalls (User.usage (reqUser c)))
                * inject_Z n)%Q in
             recordAndWork "/api/summary/batch" cost summariseBatch
       end)
    onError.

(** ** One request through the route *)

Inductive Endpoint := Summary | Batch.

Definition controller (ep : Endpoint) : M Outcome :=
  match ep with
  | Summary => getSummary
  | Batch => getBatchSummaries
  end.

(** Running an async middleware: a throw that escapes it is a rejected
    promise. *)
Definition run (h : M Outcome) (c : Ctx) : Outcome * Ctx :=
  match h c with
  | (Val o, c') => (o, c')
  | (Thrown e, c') => (Rejected e, c')
  end.

(** The context in which the chain starts for the user the authentication
    middleware loaded from the store. *)
Definition startCtx (d : Db) (u : User.t) : Ctx :=
  mkCtx d u None None (now env) [] None.

(** [router.post(path, auth, rateLimit, handler)]: authentication loads the
    user by id (its own checks and bookkeeping are left out), the rate
    limiter runs, and the handler runs when the rate limiter called
    [next()]. *)
Definition handle (ep : Endpoint) (uid : Z) (d : Db) : Outcome * Db :=
  match users d !! uid with
  | None => (Json 401 "AUTHENTICATION_FAILED", d)
  | Some u =>
    match run rateLimit (startCtx d u) with
    | (Next, c1) => let (o, c2) := run (controller ep) c1 in (o, db c2)
    | (o, c1) => (o, db c1)
    end
  end.

End Handlers.

(** A request as the route sees it, and a run of requests served one after
    the other against the same store. *)
Record Request := mkRequest {
  rq_endpoint : Endpoint;
  rq_env : Env
}.

Definition serve (addMonth : Z -> Z) (uid : Z) (rs : list Request) (d : Db) : Db :=
  fold_left (fun d r => snd (handle addMonth (rq_env r) (rq_endpoint r) uid d)) rs d.

(** The monthly counter of a stored user. *)
Definition storedMonthlyCalls (d : Db) (uid : Z) : option Z :=
  (fun u => User.monthlyCalls (User.usage u)) <$> users d !! uid.

(** Daily check as the specification words it: the events of the user in
    the trailing twenty-four hours whose state is completed or pending are
    counted, and the request is denied when that count plus the requested
    units exceeds the daily limit. *)
Definition spec_dailyCount (d : Db) (uid : Z) (t : Z) : Z :=
  Z.of_nat (length (List.filter
    (fun a => (ApiCall.user a =? uid)
              && (t - msPerDay <=? ApiCall.timestamp a)
              && match ApiCall.state a with
                 | ApiCall.failed => false
                 | _ => true
                 end)
    (apicalls d))).

Definition spec_dailyDenied (d : Db) (uid : Z) (t : Z) (unitCount : Z)
  (dailyLimit : Z) : bool :=
  dailyLimit <? spec_dailyCount d uid t + unitCount.

(** The per-plan monthly limits as the claim about [canMakeApiCall] lists
    them, unknown plans falling back to the free limit. *)
Definition listedMonthlyLimit (planName : string) : Z :=
  if bool_decide (planName = "free") then 100
  else if bool_decide (planName = "basic") then 1000
  else if bool_decide (planName = "premium") then 10000
  else if bool_decide (planName = "enterprise") then 100000
  else 100.

(** ** Fixtures: the catalog of the test suite and of the seed script *)

Module Fixture.

(** A thirty-day month, as the middleware itself assumes for [resetDate]. *)
Definition month30 (t : Z) : Z := t + 30 * msPerDay.

Definition noFaults (s : Site) : bool := false.

Definition siteEqb (a b : Site) : bool :=
  match a, b with
  | MwGetPlan, MwGetPlan | MwSaveReset, MwSaveReset
  | MwAggDaily, MwAggDaily | MwAggMinute, MwAggMinute
  | CtSaveReset, CtSaveReset | CtGetPlan, CtGetPlan
  | CtSaveCall, CtSaveCall | CtWork, CtWork
  | CtSaveCompleted, CtSaveCompleted | CtSaveUsage, CtSaveUsage
  | CtSaveFailed, CtSaveFailed => true
  | _, _ => false
  end.

(** Only the await at [s] rejects. *)
Definition faultAt (s : Site) (x : Site) : bool := siteEqb s x.

(** The free plan of tests/api.test.js. *)
Definition testFreePlan : Pricing.t :=
  Pricing.mk "free" 0%Q (Pricing.mkLimits 10 5 2 1)
    {[ "basicSummary" := true; "customStyles" := false;
       "batchProcessing" := false ]}
    true.

(** The basic plan of scripts/seedData.js. *)
Definition seedBasicPlan : Pricing.t :=
  Pricing.mk "basic" 0.01%Q (Pricing.mkLimits 1000 100 10 5)
    {[ "basicSummary" := true; "customStyles" := true;
       "batchProcessing" := true; "apiAccess" := true;
       "prioritySupport" := false; "analyticsAccess" := true;
       "customIntegrations" := false; "whiteLabel" := false ]}
    true.

(** A free plan whose catalog limit is above the built-in table. *)
Definition generousFreePlan : Pricing.t :=
  Pricing.mk "free" 0%Q (Pricing.mkLimits 1000 500 20 1)
    {[ "basicSummary" := true ]} true.

Definition catalog : list Pricing.t := [testFreePlan; seedBasicPlan].

Definition someWork : WorkResult := mkWork (ApiCall.mkTokens 3 4 7) 120.

(** Noon UTC of day 20000 after the epoch. *)
Definition noon : Z := 20000 * msPerDay + 12 * 60 * 60 * 1000.

Definition request (t : Z) (f : Site -> bool) (its : list string) : Env :=
  mkEnv t 0 f true (Some "Rocq") None its None (fun _ => false) 250 someWork.

Definition user (rl pl : string) (calls : Z) : User.t :=
  User.mk 7 rl pl (User.mkUsage calls (noon - msPerDay) calls None) 0.

Definition store (u : User.t) (events : list ApiCall.t)
  (cat : list Pricing.t) : Db :=
  mkDb {[ User.id u := u ]} events cat.

Definition boom : ApiCall.JsError := ApiCall.mkError "upstream failed" None.

Definition closedEvent : ApiCall.t :=
  ApiCall.markCompleted (noon + 250)
    (ApiCall.mkResponseData (Some 250) (Some (ApiCall.mkTokens 3 4 7)) (Some 120))
    (ApiCall.create noon 7 "/api/summary" 0.01%Q).

(** An event of user 7 requested at [t] and completed at once. *)
Definition eventAt (t : Z) : ApiCall.t :=
  ApiCall.markCompleted t (ApiCall.mkResponseData None None None)
    (ApiCall.create t 7 "/api/summary" 0%Q).

(** An event of user 7 requested at [t] whose work failed. *)
Definition failedAt (t : Z) : ApiCall.t :=
  ApiCall.markFailed t boom (ApiCall.create t 7 "/api/summary" 0%Q).

End Fixture.

(** ** Reasoning about computations

    [wp m Q c]: running [m] from context [c] ends, by return or by throw, in
    a result and a context that satisfy [Q]. *)
Definition wp {A} (m : M A) (Q : Res A -> Ctx -> Prop) (c : Ctx) : Prop :=
  Q (fst (m c)) (snd (m c)).

(** [keeps I m]: from a context that satisfies [I], [m] ends, by return or
    by throw, in a context that satisfies [I]. *)
Definition keeps {A} (I : Ctx -> Prop) (m : M A) : Prop :=
  forall c, I c -> I (snd (m c)).

(** The outcome of an async handler whose body ended in [r]. *)
Definition settle (r : Res Outcome) : Outcome :=
  match r with
  | Val o => o
  | Thrown e => Rejected e
  end.

(** ** Invariants of the store

    [Held uid rl pl cat d]: the catalog of [d] is [cat] and [d] stores, under
    key [uid], a user with that id, role [rl], plan [pl] and a monthly
    counter that is not negative. *)
Definition Held (uid : Z) (rl pl : string) (cat : list Pricing.t) (d : Db) : Prop :=
  pricings d = cat
  /\ match users d !! uid with
     | Some u =>
         User.id u = uid /\ User.role u = rl /\ User.plan u = pl
         /\ 0 <= User.monthlyCalls (User.usage u)
     | None => False
     end.

(** The same for a request in flight: the document in memory agrees with the
    stored one on id, role and plan. *)
Definition HeldCtx (uid : Z) (rl pl : string) (cat : list Pricing.t) (c : Ctx) : Prop :=
  User.id (reqUser c) = uid /\ User.role (reqUser c) = rl
  /\ User.plan (reqUser c) = pl
  /\ 0 <= User.monthlyCalls (User.usage (reqUser c))
  /\ Held uid rl pl cat (db c).

(** The awaits of the middleware that come before its monthly check do not
    reject in request [r]. *)
Definition checkedRequest (r : Request) : Prop :=
  faults (rq_env r) MwGetPlan = false /\ faults (rq_env r) MwSaveReset = false.

(** ** Further invariants of a request

    [LogGrows old c]: the event collection of [c] is [old] as long as the
    handler has not inserted its event, and [old] followed by that one event
    afterwards. *)
Definition LogGrows (old : list ApiCall.t) (c : Ctx) : Prop :=
  (apiCallSlot c = None /\ apicalls (db c) = old)
  \/ (apiCallSlot c = Some (length old)
      /\ exists x, apicalls (db c) = (old ++ [x])%list).

(** [Ledger u]: the monthly counter of [u] is not negative and not above
    the lifetime counter. *)
Definition Ledger (u : User.t) : Prop :=
  0 <= User.monthlyCalls (User.usage u)
  /\ User.monthlyCalls (User.usage u) <= User.totalCalls (User.usage u).

Definition LedgerCtx (c : Ctx) : Prop :=
  Ledger (reqUser c)
  /\ forall k u, users (db c) !! k = Some u -> Ledger u.

(** Same id, role and plan. *)
Definition sameIdentity (u0 u : User.t) : Prop :=
  User.id u = User.id u0 /\ User.role u = User.role u0
  /\ User.plan u = User.plan u0.

(** [Isolated uid u0 others cat c]: the request in [c] is made by the user
    stored under [uid], that user has kept the id, role and plan of [u0],
    every other stored user is as in [others] and the catalog is [cat]. *)
Definition Isolated (uid : Z) (u0 : User.t) (others : gmap Z User.t)
  (cat : list Pricing.t) (c : Ctx) : Prop :=
  User.id u0 = uid
  /\ pricings (db c) = cat
  /\ sameIdentity u0 (reqUser c)
  /\ (exists u, users (db c) !! uid = Some u /\ sameIdentity u0 u)
  /\ forall k, k <> uid -> users (db c) !! k = others !! k.

(** ** Account lock (models/User.js) and login (POST /api/auth/login)

    The fields of the user document that the lock, the login and the
    authentication middleware use, next to the part already modelled in
    [User]. *)

Module Account.

(** The [status] enum of the schema. *)
Inductive Status := active | suspended | pending_verification | deleted.

Record t := mk {
  doc : User.t;
  status : Status;
  loginAttempts : Z;
  lockUntil : option Z;
  lastLogin : option Z;
  lastActiveAt : Z;
  apiKey : option string
}.

(** Virtual [isLocked]: [!!(this.lockUntil && this.lockUntil > Date.now())]. *)
Definition isLocked (now : Z) (a : t) : bool :=
  match lockUntil a with
  | Some l => now <? l
  | None => false
  end.

(** The update documents the two methods pass to [updateOne]. *)
Inductive Update :=
| Restart                       (* $unset lockUntil, $set loginAttempts 1 *)
| Increment (lock : option Z)   (* $inc loginAttempts 1, maybe $set lockUntil *)
| Clear.                        (* $unset loginAttempts and lockUntil *)

Definition lockMs : Z := 2 * 60 * 60 * 1000.

(** [incLoginAttempts()], read at instant [now] on the loaded document:
    an expired lock restarts the count at 1; otherwise the count goes up by
    one and the account is locked for two hours when that makes five or
    more and it is not locked already. *)
Definition incLoginAttempts (now : Z) (this : t) : Update :=
  if match lockUntil this with Some l => l <? now | None => false end
  then Restart
  else
    Increment
      (if (5 <=? loginAttempts this + 1) && negb (isLocked now this)
       then Some (now + lockMs) else None).

(** [resetLoginAttempts()]. *)
Definition resetLoginAttempts : Update := Clear.

(** The effect of [updateOne] on the stored document; an unset
    [loginAttempts] reads back as the schema default 0. *)
Definition applyUpdate (upd : Update) (stored : t) : t :=
  match upd with
  | Restart =>
      mk (doc stored) (status stored) 1 None (lastLogin stored)
         (lastActiveAt stored) (apiKey stored)
  | Increment lock =>
      mk (doc stored) (status stored) (loginAttempts stored + 1)
         (match lock with Some l => Some l | None => lockUntil stored end)
         (lastLogin stored) (lastActiveAt stored) (apiKey stored)
  | Clear =>
      mk (doc stored) (status stored) 0 None (lastLogin stored)
         (lastActiveAt stored) (apiKey stored)
  end.

(** The awaits of the login handler. *)
Inductive Site := LFind | LCompare | LInc | LReset | LSaveReset | LSave.

(** Inputs of one login request: the instant, whether the body passed
    validation, whether the password matches the stored hash, and the awaits
    that reject. *)
Record Env := mkEnv {
  now : Z;
  validBody : bool;
  passwordOk : bool;
  faults : Site -> bool
}.

(** How the login handler leaves: 200, the 400 of the validator,
    [next(new AuthenticationError(message))], or [next(error)] for a
    rejected await. *)
Inductive Outcome :=
| LoggedIn
| BadRequest
| Refused (message : string)
| Failed.

(** The login handler on the stored account [found] that [findOne] returns
    for the e-mail address; the result is the outcome and the stored account
    afterwards.  [updateOne] changes the stored document only; [save()]
    writes the paths changed in memory ([lastLogin], [lastActiveAt] and,
    after a reset, the monthly usage), so the counters [resetLoginAttempts]
    cleared in the store stay cleared. *)
Definition login (addMonth : Z -> Z) (e : Env) (found : option t)
  : Outcome * option t :=
  if negb (validBody e) then (BadRequest, found)
  else if faults e LFind then (Failed, found)
  else
    match found with
    | None => (Refused "Invalid email or password", None)
    | Some user =>
      if isLocked (now e) user then
        (Refused "Account is temporarily locked. Please try again later.",
         Some user)
      else if match status user with suspended => true | _ => false end then
        (Refused "Account has been suspended. Please contact support.",
         Some user)
      else if faults e LCompare then (Failed, Some user)
      else if negb (passwordOk e) then
        if faults e LInc then (Failed, Some user)
        else (Refused "Invalid email or password",
              Some (applyUpdate (incLoginAttempts (now e) user) user))
      else if (0 <? loginAttempts user) && faults e LReset then
        (Failed, Some user)
      else
        let cleared :=
          if 0 <? loginAttempts user then applyUpdate resetLoginAttempts user
          else user in
        let due := User.shouldResetMonthlyUsage addMonth (now e) (doc user) in
        let saved :=
          mk (if due then User.clearMonthly (now e) (doc user) else doc user)
             (status cleared) (loginAttempts cleared) (lockUntil cleared)
             (Some (now e)) (now e) (apiKey cleared) in
        if due then
          if faults e LSaveReset then (Failed, Some cleared)
          else if faults e LSave then (Failed, Some saved)
          else (LoggedIn, Some saved)
        else if faults e LSave then (Failed, Some cleared)
        else (LoggedIn, Some saved)
    end.

(** Login requests for one address, one after the other. *)
Definition logins (addMonth : Z -> Z) (es : list Env) (found : option t)
  : option t :=
  fold_left (fun stored e => snd (login addMonth e stored)) es found.

(** A login request at [t] with a wrong password and a working store. *)
Definition wrongPasswordAt (t : Z) : Env := mkEnv t true false (fun _ => false).

(** A login request at [t] with the right password and a working store. *)
Definition rightPasswordAt (t : Z) : Env := mkEnv t true true (fun _ => false).

End Account.

(** ** The authentication middleware (middleware/auth.js,
    src/unnamed/part_003) *)

Module Auth.

(** What [jwt.verify(token, secret)] does with a token: it returns the
    payload, of which the middleware reads [id], or it throws a
    [JsonWebTokenError], a [TokenExpiredError] or an error of another
    name. *)
Inductive Verify :=
| Verified (id : Z)
| JsonWebTokenError
| TokenExpiredError
| OtherError.

(** What the middleware reads of the request. *)
Record Req := mkReq {
  authorization : option string;   (* req.header('Authorization') *)
  xApiKey : option string;         (* req.header('X-API-Key') *)
  queryApiKey : option string      (* req.query.apiKey *)
}.

(** The awaits of the middleware. *)
Inductive Site := FindById | FindByApiKey | Save.

Record Env := mkEnv {
  now : Z;
  verify : string -> Verify;
  faults : Site -> bool
}.

Inductive Method := jwt | apikey.

(** The messages of the [AuthenticationError]s the middleware throws; the
    lock message carries the number of minutes. *)
Inductive Failure :=
| NoToken                      (* No authentication token provided *)
| UserNotFound                 (* User not found *)
| InvalidToken                 (* Invalid token *)
| TokenExpired                 (* Token expired *)
| InvalidApiKeyFormat          (* Invalid API key format *)
| InvalidApiKey                (* Invalid API key *)
| NotActive (message : string)
| Locked (minutes : Z).        (* Account is temporarily locked. Try again in N minutes. *)

(** How the middleware leaves: [next()] with [req.user] and
    [req.authMethod] set, 401 AUTHENTICATION_FAILED for an
    [AuthenticationError], 401 AUTHENTICATION_ERROR for any other error. *)
Inductive Outcome :=
| Next (user : Account.t) (method : Method)
| Failed (failure : Failure)
| Error.

(** JavaScript truthiness of an optional string. *)
Definition truthy (s : option string) : bool :=
  match s with
  | Some v => negb (bool_decide (v = ""))
  | None => false
  end.

(** The token: [authHeader.substring(7)] when the header starts with
    'Bearer '. *)
Definition bearerToken (req : Req) : option string :=
  match authorization req with
  | Some header =>
      if truthy (Some header) && String.prefix "Bearer " header
      then Some (String.substring 7 (String.length header - 7) header)
      else None
  | None => None
  end.

(** [req.header('X-API-Key') || req.query.apiKey]. *)
Definition requestApiKey (req : Req) : option string :=
  if truthy (xApiKey req) then xApiKey req else queryApiKey req.

(** [User.findById(id)]. *)
Definition findById (store : list Account.t) (id : Z) : option Account.t :=
  List.find (fun a => User.id (Account.doc a) =? id) store.

(** [User.findByApiKey(apiKey)]: [findOne({apiKey, status: 'active'})]. *)
Definition findByApiKey (store : list Account.t) (key : string)
  : option Account.t :=
  List.find
    (fun a =>
       bool_decide (Account.apiKey a = Some key)
       && match Account.status a with Account.active => true | _ => false end)
    store.

(** The first part of the middleware: find out the method and load the
    user, or fail. *)
Definition resolve (e : Env) (req : Req) (store : list Account.t)
  : Outcome + Account.t * Method :=
  let token := bearerToken req in
  let key := requestApiKey req in
  if negb (truthy token) && negb (truthy key) then inl (Failed NoToken)
  else
    match token, key with
    | Some token, _ =>
        if negb (bool_decide (token = "")) then
          match verify e token with
          | JsonWebTokenError => inl (Failed InvalidToken)
          | TokenExpiredError => inl (Failed TokenExpired)
          | OtherError => inl Error
          | Verified id =>
              if faults e FindById then inl Error
              else
                match findById store id with
                | None => inl (Failed UserNotFound)
                | Some user => inr (user, jwt)
                end
          end
        else
          match key with
          | Some key =>
              if negb (String.prefix "wsg_" key) then
                inl (Failed InvalidApiKeyFormat)
              else if faults e FindByApiKey then inl Error
              else
                match findByApiKey store key with
                | None => inl (Failed InvalidApiKey)
                | Some user => inr (user, apikey)
                end
          | None => inl (Failed NoToken)
          end
    | None, Some key =>
        if negb (String.prefix "wsg_" key) then inl (Failed InvalidApiKeyFormat)
        else if faults e FindByApiKey then inl Error
        else
          match findByApiKey store key with
          | None => inl (Failed InvalidApiKey)
          | Some user => inr (user, apikey)
          end
    | None, None => inl (Failed NoToken)
    end.

(** [statusMessages[user.status] || 'Account is not active']. *)
Definition statusMessage (s : Account.Status) : string :=
  match s with
  | Account.suspended => "Account has been suspended"
  | Account.pending_verification => "Email verification required"
  | Account.deleted => "Account has been deleted"
  | Account.active => "Account is not active"
  end.

(** [Math.ceil((user.lockUntil - Date.now()) / 60000)]. *)
Definition lockMinutes (now : Z) (l : Z) : Z := (l - now + 59999) / 60000.

(** [user.save()] after [user.lastActiveAt = new Date()]: the stored
    document of that id gets the new [lastActiveAt]. *)
Definition saveActivity (t : Z) (user : Account.t) (store : list Account.t)
  : list Account.t :=
  map (fun a =>
         if User.id (Account.doc a) =? User.id (Account.doc user)
         then Account.mk (Account.doc a) (Account.status a)
                (Account.loginAttempts a) (Account.lockUntil a)
                (Account.lastLogin a) t (Account.apiKey a)
         else a)
      store.

(** The second part: the account must be active and not locked
    ([user.isLocked]: a [lockUntil] later than now); on the JWT path the
    last activity is saved, and a rejected save ends in the generic 401 like
    any other unexpected error.  The result is the outcome and the store
    afterwards. *)
Definition checks (e : Env) (user : Account.t) (method : Method)
  (store : list Account.t) : Outcome * list Account.t :=
  let admitted :=
    match method with
    | jwt =>
        if faults e Save then (Error, store)
        else
          (Next (Account.mk (Account.doc user) (Account.status user)
                   (Account.loginAttempts user) (Account.lockUntil user)
                   (Account.lastLogin user) (now e) (Account.apiKey user))
                jwt,
           saveActivity (now e) user store)
    | apikey => (Next user apikey, store)
    end in
  match Account.status user with
  | Account.active =>
      match Account.lockUntil user with
      | Some l =>
          if now e <? l then (Failed (Locked (lockMinutes (now e) l)), store)
          else admitted
      | None => admitted
      end
  | s => (Failed (NotActive (statusMessage s)), store)
  end.

(** The middleware. *)
Definition auth (e : Env) (req : Req) (store : list Account.t)
  : Outcome * list Account.t :=
  match resolve e req store with
  | inl refused => (refused, store)
  | inr (user, method) => checks e user method store
  end.

End Auth.

(** ** Usage statistics of a user (models/ApiCall.js, [getUsageStats]) *)

Module UsageStats.

(** The integer fields of the one document the [$group] stage produces;
    [totalCost] and [avgResponseTime], which are sums and means of doubles,
    are left out. *)
Record t := mk {
  totalCalls : Z;
  successfulCalls : Z;
  totalTokens : Z;
  endpoints : gset string
}.

(** The [$match] stage: the events of [userId], and between [startDate] and
    [endDate], both included, when both are given. *)
Definition matches (userId : Z) (range : option (Z * Z)) (a : ApiCall.t) : bool :=
  (ApiCall.user a =? userId)
  && match range with
     | Some (startDate, endDate) =>
         (startDate <=? ApiCall.timestamp a) && (ApiCall.timestamp a <=? endDate)
     | None => true
     end.

(** [$sum: {$cond: [{$eq: ['$responseStatus', 'success']}, 1, 0]}]. *)
Definition countSuccessful (evs : list ApiCall.t) : Z :=
  fold_right
    (fun a n =>
       match ApiCall.responseStatus a with
       | ApiCall.success => 1 + n
       | _ => 0 + n
       end) 0 evs.

(** [$sum: '$tokensUsed.total']. *)
Definition sumTokens (evs : list ApiCall.t) : Z :=
  fold_right (fun a n => ApiCall.total (ApiCall.tokensUsed a) + n) 0 evs.

(** [$group] with [_id: null] over the matched events. *)
Definition group (evs : list ApiCall.t) : t :=
  mk (Z.of_nat (length evs)) (countSuccessful evs) (sumTokens evs)
     (list_to_set (ApiCall.endpoint <$> evs)).

(** [ApiCall.getUsageStats(userId, startDate, endDate)] over the event
    collection: one row when an event matches, none otherwise. *)
Definition getUsageStats (events : list ApiCall.t) (userId : Z)
  (range : option (Z * Z)) : list t :=
  match List.filter (matches userId range) events with
  | [] => []
  | evs => [group evs]
  end.

(** [stats[0] || {totalCalls: 0, successfulCalls: 0, ..., totalTokens: 0}]
    of [getSummaryHistory]. *)
Definition statistics (rows : list t) : t :=
  match rows with
  | row :: _ => row
  | [] => mk 0 0 0 ∅
  end.

End UsageStats.

(** * Properties *)

(** ** Cost calculator *)

Section BestTier.

Variable reaches : Z -> Z -> bool.
Variable k : Z.

(** What the fold keeps: when it ends on a tier, that tier was the start
    value or a reaching member of the list, and no reaching member and no
    start value has a higher threshold. *)
Lemma fold_pick_sound (tiers : list Tiers.tier) :
  forall acc t,
    fold_left (Tiers.pick reaches k) tiers acc = Some t ->
    (acc = Some t \/ (In t tiers /\ reaches (fst t) k = true))
    /\ (forall b, acc = Some b -> fst b <= fst t)
    /\ (forall t', In t' tiers -> reaches (fst t') k = true -> fst t' <= fst t).
Proof.
  induction tiers as [|x tiers IH]; intros acc t Hf; simpl in Hf.
  - subst acc. repeat split; auto; [intros b [= ->]; lia | intros ? []].
  - destruct (IH _ _ Hf) as (Hsrc & Hacc & Hmax). clear IH Hf.
    unfold Tiers.pick in Hsrc, Hacc.
    destruct (reaches (fst x) k) eqn:Hx.
    + destruct acc as [b|].
      * destruct (Z.ltb_spec (fst b) (fst x)) as [Hlt|Hge].
        -- repeat split.
           ++ right. destruct Hsrc as [[= <-]|[? ?]]; simpl; auto.
           ++ intros b' [= <-]. specialize (Hacc x eq_refl). lia.
           ++ intros t' [<-|Hin] Ht'; [apply Hacc; reflexivity | auto].
        -- repeat split.
           ++ destruct Hsrc as [?|[? ?]]; simpl; auto.
           ++ intros b' [= <-]. auto.
           ++ intros t' [<-|Hin] Ht'; [|auto].
              specialize (Hacc b eq_refl). lia.
      * repeat split.
        -- right. destruct Hsrc as [[= <-]|[? ?]]; simpl; auto.
        -- intros b [=].
        -- intros t' [<-|Hin] Ht'; [apply Hacc; reflexivity | auto].
    + repeat split.
      * destruct Hsrc as [?|[? ?]]; simpl; auto.
      * auto.
      * intros t' [<-|Hin] Ht'; [congruence | auto].
Qed.

(** The fold ends on no tier only when it started on none and no member of
    the list reaches. *)
Lemma fold_pick_none (tiers : list Tiers.tier) :
  forall acc,
    fold_left (Tiers.pick reaches k) tiers acc = None ->
    acc = None /\ forall t, In t tiers -> reaches (fst t) k = false.
Proof.
  induction tiers as [|x tiers IH]; intros acc Hf; simpl in Hf.
  - split; [assumption | intros ? []].
  - destruct (IH _ Hf) as [Hacc Hrest]. unfold Tiers.pick in Hacc.
    destruct (reaches (fst x) k) eqn:Hx.
    + destruct acc as [b|]; [destruct (fst b <? fst x)|]; discriminate.
    + split; [assumption|]. intros t [<-|Hin]; auto.
Qed.

(** [bestTier] is the highest-threshold reaching tier of the list. *)
Lemma bestTier_highest (tiers : list Tiers.tier) (t : Tiers.tier) :
  Tiers.bestTier reaches tiers k = Some t ->
  In t tiers /\ reaches (fst t) k = true
  /\ forall t', In t' tiers -> reaches (fst t') k = true -> fst t' <= fst t.
Proof.
  intros Hb. destruct (fold_pick_sound tiers None t Hb) as ([Hn|[? ?]] & _ & Hmax).
  - discriminate.
  - auto.
Qed.

Lemma bestTier_none (tiers : list Tiers.tier) :
  Tiers.bestTier reaches tiers k = None ->
  forall t, In t tiers -> reaches (fst t) k = false.
Proof. intros Hb. apply (fold_pick_none tiers None Hb). Qed.

End BestTier.

(** The three-way branch of [getEffectivePrice], case by case. *)
Lemma getEffectivePrice_cases (p : Pricing.t) (k : Z) :
  (10000 < k /\ Pricing.getEffectivePrice p k = (Pricing.pricePerCall p * 0.9)%Q)
  \/ (1000 < k <= 10000
      /\ Pricing.getEffectivePrice p k = (Pricing.pricePerCall p * 0.95)%Q)
  \/ (k <= 1000 /\ Pricing.getEffectivePrice p k = Pricing.pricePerCall p).
Proof.
  unfold Pricing.getEffectivePrice.
  destruct (Z.ltb_spec 10000 k); [left; auto|].
  destruct (Z.ltb_spec 1000 k); [right; left; split; [lia | reflexivity]|].
  right; right; auto.
Qed.

(** C5, as stated, fails on the threshold itself: at a count of exactly 1000
    the tier (1000, 0.95) has a threshold less than or equal to the count, so
    the stated rule charges 0.0095, while [getEffectivePrice] charges the
    undiscounted 0.01. *)
Lemma C5_tier_boundary_not_discounted :
  (Tiers.spec_price Tiers.codeTiers 0.01 1000 == 0.0095)%Q
  /\ (Pricing.getEffectivePrice Fixture.seedBasicPlan 1000 == 0.01)%Q
  /\ ~ (Pricing.getEffectivePrice Fixture.seedBasicPlan 1000
        == Tiers.spec_price Tiers.codeTiers
             (Pricing.pricePerCall Fixture.seedBasicPlan) 1000)%Q.
Proof.
  split; [vm_compute; reflexivity|].
  split; [vm_compute; reflexivity|].
  vm_compute. discriminate.
Qed.

(** C5 (amended): for every plan and every count [k] the price of
    [getEffectivePrice] is [pricePerCall] times the factor of the highest
    tier of [(1000, 0.95); (10000, 0.9)] whose threshold is strictly below
    [k], and [pricePerCall] itself when no threshold is below [k]; at a count
    of 1500 this is [pricePerCall * 0.95], which is 0.0095 for the price
    0.01 of the seeded basic plan. *)
Theorem C5_effective_price_strict_tiers (p : Pricing.t) (k : Z) :
  Pricing.getEffectivePrice p k
    = Tiers.strict_price Tiers.codeTiers (Pricing.pricePerCall p) k
  /\ Pricing.getEffectivePrice p 1500 = (Pricing.pricePerCall p * 0.95)%Q
  /\ (Pricing.getEffectivePrice Fixture.seedBasicPlan 1500 == 0.0095)%Q.
Proof.
  split; [|split; [reflexivity | vm_compute; reflexivity]].
  unfold Pricing.getEffectivePrice, Tiers.strict_price, Tiers.tierPrice,
    Tiers.bestTier, Tiers.codeTiers, Tiers.pick.
  simpl fold_left. cbn [fst snd].
  destruct (Z.ltb_spec 1000 k) as [H1|H1];
    destruct (Z.ltb_spec 10000 k) as [H2|H2]; reflexivity.
Qed.

(** On doubles, the price of the scenario is the double written 0.0095. *)
Lemma scenario_price_in_binary64 :
  Binary64.getEffectivePrice 0.01 1500 = 0.0095%float.
Proof. reflexivity. Qed.

(** C8: the price depends on the plan only through [pricePerCall] and on the
    count, so equal inputs give equal prices, and for a plan whose
    [pricePerCall] is not negative the price does not increase when the
    count grows. *)
Theorem C8_price_deterministic_and_monotone
  (p q : Pricing.t) (k k' : Z)
  (Hprice : (0 <= Pricing.pricePerCall p)%Q) :
  ((Pricing.pricePerCall p == Pricing.pricePerCall q)%Q -> k = k' ->
     (Pricing.getEffectivePrice p k == Pricing.getEffectivePrice q k')%Q)
  /\ (k <= k' ->
      (Pricing.getEffectivePrice p k' <= Pricing.getEffectivePrice p k)%Q).
Proof.
  split.
  - intros Hpq <-. unfold Pricing.getEffectivePrice.
    destruct (10000 <? k); [now rewrite Hpq|].
    destruct (1000 <? k); [now rewrite Hpq | exact Hpq].
  - intros Hk.
    assert (H95 : (Pricing.pricePerCall p * 0.95 <= Pricing.pricePerCall p)%Q).
    { rewrite <- (Qmult_1_r (Pricing.pricePerCall p)) at 2.
      rewrite !(Qmult_comm (Pricing.pricePerCall p)).
      apply Qmult_le_compat_r; [discriminate | exact Hprice]. }
    assert (H90 : (Pricing.pricePerCall p * 0.9 <= Pricing.pricePerCall p * 0.95)%Q).
    { rewrite !(Qmult_comm (Pricing.pricePerCall p)).
      apply Qmult_le_compat_r; [discriminate | exact Hprice]. }
    destruct (getEffectivePrice_cases p k) as [[Hc ->]|[[Hc ->]|[Hc ->]]];
      destruct (getEffectivePrice_cases p k') as [[Hc' ->]|[[Hc' ->]|[Hc' ->]]];
      try lia; try apply Qle_refl; try assumption.
    eapply Qle_trans; eassumption.
Qed.

Lemma C8_price_deterministic_and_monotone_witness :
  (0 <= Pricing.pricePerCall Fixture.seedBasicPlan)%Q
  /\ (Pricing.getEffectivePrice Fixture.seedBasicPlan 20000
      <= Pricing.getEffectivePrice Fixture.seedBasicPlan 500)%Q.
Proof.
  assert (H : (0 <= Pricing.pricePerCall Fixture.seedBasicPlan)%Q)
    by (vm_compute; discriminate).
  split; [exact H|].
  apply (C8_price_deterministic_and_monotone
           Fixture.seedBasicPlan Fixture.seedBasicPlan 500 20000 H).
  lia.
Defined.


(** ** The built-in limit table of the user model *)

Lemma limitsTable_unlisted (planName : string) :
  planName <> "free" -> planName <> "basic" ->
  planName <> "premium" -> planName <> "enterprise" ->
  User.limitsTable !! planName = None.
Proof.
  intros Hf Hb Hp He. unfold User.limitsTable.
  rewrite !lookup_insert_ne by congruence.
  apply lookup_singleton_ne. congruence.
Qed.

Lemma getUsageLimits_monthly (u : User.t) :
  User.plan u ∉ User.inheritedKeys ->
  User.monthly (User.getUsageLimits u) = Some (listedMonthlyLimit (User.plan u)).
Proof.
  intros Hname. unfold User.getUsageLimits, listedMonthlyLimit.
  repeat case_bool_decide;
    try match goal with H : User.plan u = _ |- _ => rewrite H; reflexivity end.
  all: rewrite limitsTable_unlisted by assumption;
    first [reflexivity | contradiction].
Qed.

(** C10: [canMakeApiCall] compares [usage.monthlyCalls] with the built-in
    table (free 100, basic 1000, premium 10000, enterprise 100000, any other
    plan name 100, for every name that is not a member of
    [Object.prototype]) and never reads the catalog, so the limit of the
    handler and the limit of the middleware can differ on one request: with
    the test catalog (free plan limited to 10) a user at 10 calls passes
    [canMakeApiCall] and is refused by the middleware, and with a catalog
    whose free plan allows 1000 a user at 100 calls passes the middleware and
    is refused by the handler. *)
Theorem C10_handler_limit_is_built_in
  (u : User.t) (Hname : User.plan u ∉ User.inheritedKeys) :
  User.canMakeApiCall u
  = (User.monthlyCalls (User.usage u) <? listedMonthlyLimit (User.plan u))
  /\ (let v := Fixture.user "user" "free" 10 in
      User.canMakeApiCall v = true
      /\ fst (handle Fixture.month30
                (Fixture.request Fixture.noon Fixture.noFaults [])
                Summary 7 (Fixture.store v [] [Fixture.testFreePlan]))
         = Json 429 "MONTHLY_LIMIT_EXCEEDED")
  /\ (let v := Fixture.user "user" "free" 100 in
      let e := Fixture.request Fixture.noon Fixture.noFaults [] in
      User.canMakeApiCall v = false
      /\ fst (run (rateLimit Fixture.month30 e)
                (startCtx e (Fixture.store v [] [Fixture.generousFreePlan]) v))
         = Next
      /\ fst (handle Fixture.month30 e Summary 7
                (Fixture.store v [] [Fixture.generousFreePlan]))
         = Json 429 "Monthly API limit exceeded").
Proof.
  split; [|split].
  - unfold User.canMakeApiCall. now rewrite getUsageLimits_monthly.
  - vm_compute. split; reflexivity.
  - vm_compute. repeat split; reflexivity.
Qed.

Lemma C10_handler_limit_is_built_in_witness :
  let u := Fixture.user "user" "gold" 99 in
  (User.plan u ∉ User.inheritedKeys)
  /\ User.canMakeApiCall u = (99 <? 100).
Proof.
  intros u.
  assert (Hname : User.plan u ∉ User.inheritedKeys).
  { intros Hin. apply list_elem_of_In in Hin. simpl in Hin.
    repeat (destruct Hin as [Hin|Hin]; [discriminate Hin|]). exact Hin. }
  split; [exact Hname|].
  exact (proj1 (C10_handler_limit_is_built_in u Hname)).
Defined.

(** ** Closing a usage event *)

(** C3, as stated, fails: an event that was completed is closed again by
    [markFailed]; the call is not rejected, the state goes from completed to
    failed and the error fields and the completion time are overwritten. *)
Lemma C3_closed_event_is_closed_again :
  let e := Fixture.request Fixture.noon Fixture.noFaults [] in
  let u := Fixture.user "user" "free" 0 in
  let c := mkCtx (Fixture.store u [Fixture.closedEvent] Fixture.catalog) u
                 (Some Fixture.closedEvent) (Some 0%nat) (Fixture.noon + 900)
                 [] None in
  ApiCall.state Fixture.closedEvent = ApiCall.completed
  /\ fst (markFailed e CtSaveFailed Fixture.boom c) = Val tt
  /\ (ApiCall.state <$> apiCall (snd (markFailed e CtSaveFailed Fixture.boom c)))
     = Some ApiCall.failed
  /\ (ApiCall.state <$> apicalls (db (snd (markFailed e CtSaveFailed Fixture.boom c))))
     = [ApiCall.failed]
  /\ apiCall (snd (markFailed e CtSaveFailed Fixture.boom c))
     <> Some Fixture.closedEvent.
Proof.
  vm_compute. repeat split; try reflexivity. discriminate.
Qed.

(** C3 (amended): [markCompleted] and [markFailed] do not look at the state
    of the event.  Whatever the event was, [markCompleted] leaves it
    completed and [markFailed] leaves it failed, both stamp the completion
    time, and neither touches the user, the endpoint, the cost or the
    request time; the call fails only when the save itself is rejected. *)
Theorem C3_close_overwrites_any_state
  (e : Env) (site : Site) (t : Z) (rd : ApiCall.ResponseData)
  (err : ApiCall.JsError) (a : ApiCall.t) (c : Ctx)
  (Hsave : faults e site = false) :
  ApiCall.state (ApiCall.markCompleted t rd a) = ApiCall.completed
  /\ ApiCall.state (ApiCall.markFailed t err a) = ApiCall.failed
  /\ ApiCall.completedAt (ApiCall.markCompleted t rd a) = Some t
  /\ ApiCall.completedAt (ApiCall.markFailed t err a) = Some t
  /\ (forall b, b = ApiCall.markCompleted t rd a \/ b = ApiCall.markFailed t err a ->
        ApiCall.user b = ApiCall.user a
        /\ ApiCall.endpoint b = ApiCall.endpoint a
        /\ ApiCall.cost b = ApiCall.cost a
        /\ ApiCall.timestamp b = ApiCall.timestamp a)
  /\ fst (markCompleted e site rd c) = Val tt
  /\ apiCall (snd (markCompleted e site rd c))
     = (ApiCall.markCompleted (clock c) rd <$> apiCall c)
  /\ fst (markFailed e site err c) = Val tt
  /\ apiCall (snd (markFailed e site err c))
     = (ApiCall.markFailed (clock c) err <$> apiCall c).
Proof.
  repeat match goal with |- _ /\ _ => split end; try reflexivity.
  - intros b [-> | ->]; repeat split; reflexivity.
  - unfold markCompleted, saveApiCall, await, bind, modify, throw. simpl.
    rewrite Hsave. reflexivity.
  - unfold markCompleted, saveApiCall, await, bind, modify, throw. simpl.
    rewrite Hsave. simpl. destruct (apiCall c); reflexivity.
  - unfold markFailed, saveApiCall, await, bind, modify, throw. simpl.
    rewrite Hsave. reflexivity.
  - unfold markFailed, saveApiCall, await, bind, modify, throw. simpl.
    rewrite Hsave. simpl. destruct (apiCall c); reflexivity.
Qed.


Lemma C3_close_overwrites_any_state_witness :
  let e := Fixture.request Fixture.noon Fixture.noFaults [] in
  let u := Fixture.user "user" "free" 0 in
  let c := mkCtx (Fixture.store u [Fixture.closedEvent] Fixture.catalog) u
                 (Some Fixture.closedEvent) (Some 0%nat) (Fixture.noon + 900)
                 [] None in
  faults e CtSaveFailed = false
  /\ ApiCall.state (ApiCall.markFailed (Fixture.noon + 900) Fixture.boom
                      Fixture.closedEvent) = ApiCall.failed
  /\ fst (markFailed e CtSaveFailed Fixture.boom c) = Val tt.
Proof.
  intros e u c.
  pose proof (C3_close_overwrites_any_state e CtSaveFailed (Fixture.noon + 900)
                (ApiCall.mkResponseData None None None) Fixture.boom
                Fixture.closedEvent c eq_refl) as H.
  split; [reflexivity|]. split; [apply H | apply H].
Defined.


(** ** The rate-limit middleware *)

Arguments User.shouldResetMonthlyUsage : simpl never.
Arguments Pricing.getPlan : simpl never.
Arguments Pricing.getEffectivePrice : simpl never.
Arguments startOfDay : simpl never.

Ltac unfold_eff :=
  unfold rateLimit, getPlan, checkMonthlyReset, aggregate, saveUser, await,
    tryCatch, bind, get, modify, throw, ret.

(** Split on a condition the program tests. *)
Ltac step_program :=
  simpl;
  match goal with
  | |- context [bool_decide ?P] => destruct (bool_decide P) eqn:?
  | |- context [faults ?e ?s] => destruct (faults e s) eqn:?
  | |- context [Pricing.getPlan ?l ?n] => destruct (Pricing.getPlan l n) eqn:?
  | |- context [User.shouldResetMonthlyUsage ?f ?t ?u] =>
      destruct (User.shouldResetMonthlyUsage f t u) eqn:?
  | |- context [?a <=? ?b] => destruct (a <=? b) eqn:?
  | |- context [?a <? ?b] => destruct (a <? b) eqn:?
  end.

(** C9: for a user whose role is 'admin' the middleware calls [next()] at
    once: the outcome is [Next] and the context is untouched, so no plan was
    looked up, no window was counted and none of the denials was produced. *)
Theorem C9_admin_bypasses_rate_limit
  (addMonth : Z -> Z) (e : Env) (c : Ctx)
  (Hadmin : User.role (reqUser c) = "admin") :
  rateLimit addMonth e c = (Val Next, c)
  /\ trace (snd (rateLimit addMonth e c)) = trace c
  /\ forall code, fst (run (rateLimit addMonth e) c) <> Json 429 code
                  /\ fst (run (rateLimit addMonth e) c) <> Json 500 code.
Proof.
  assert (H : rateLimit addMonth e c = (Val Next, c)).
  { unfold_eff. simpl. rewrite bool_decide_eq_true_2 by exact Hadmin. reflexivity. }
  unfold run. rewrite H. repeat split; discriminate.
Qed.

Lemma C9_admin_bypasses_rate_limit_witness :
  let e := Fixture.request Fixture.noon (fun _ => true) [] in
  let u := Fixture.user "admin" "free" 5000 in
  let c := startCtx e (Fixture.store u [] []) u in
  User.role (reqUser c) = "admin"
  /\ rateLimit Fixture.month30 e c = (Val Next, c).
Proof.
  intros e u c. split; [reflexivity|].
  apply (C9_admin_bypasses_rate_limit Fixture.month30 e c). reflexivity.
Defined.

(** C7, as stated, fails: when the plan lookup of the middleware rejects,
    the error is swallowed and the request goes on to the handler. *)
Lemma C7_lookup_failure_lets_request_through :
  let e := Fixture.request Fixture.noon (Fixture.faultAt MwGetPlan) [] in
  let u := Fixture.user "user" "free" 10 in
  let c := startCtx e (Fixture.store u [] Fixture.catalog) u in
  faults e MwGetPlan = true
  /\ trace (snd (run (rateLimit Fixture.month30 e) c)) = [MwGetPlan]
  /\ fst (run (rateLimit Fixture.month30 e) c) = Next.
Proof. vm_compute. repeat split; reflexivity. Qed.

(** C7 (amended): the middleware never throws to its caller, and it fails
    open: whenever one of the awaits it performed rejected, the outcome is
    [next()], that is, the request is let through. *)
Theorem C7_rate_limit_never_throws_fails_open
  (addMonth : Z -> Z) (e : Env) (c : Ctx) :
  exists (o : Outcome) (c' : Ctx) (fresh : list Site),
    rateLimit addMonth e c = (Val o, c')
    /\ trace c' = (trace c ++ fresh)%list
    /\ ((exists s, In s fresh /\ faults e s = true) -> o = Next).
Proof.
  unfold_eff.
  repeat step_program;
    (eexists _, _, _; split; [reflexivity|]; split;
     [simpl; rewrite <- ?app_assoc; first [reflexivity | symmetry; apply app_nil_r]|]);
    try (intros _; reflexivity);
    intros (s & Hin & Hs); simpl in Hin; intuition (subst; congruence).
Qed.

Lemma C7_rate_limit_never_throws_fails_open_witness :
  let e := Fixture.request Fixture.noon (Fixture.faultAt MwAggDaily) [] in
  let u := Fixture.user "user" "free" 1 in
  let c := startCtx e (Fixture.store u [] Fixture.catalog) u in
  fst (rateLimit Fixture.month30 e c) = Val Next.
Proof.
  intros e u c.
  destruct (C7_rate_limit_never_throws_fails_open Fixture.month30 e c)
    as (o & c' & fresh & Hrun & Htrace & Hopen).
  rewrite Hrun. simpl. f_equal. apply Hopen.
  exists MwAggDaily. split; [|reflexivity].
  assert (Ht : trace c' = trace (snd (rateLimit Fixture.month30 e c)))
    by (rewrite Hrun; reflexivity).
  rewrite Htrace in Ht. vm_compute in Ht.
  rewrite Ht. simpl. auto.
Defined.


(** [startOfDay] is the last local midnight: it is not after [t], less than a
    day before [t], and a whole number of days in local time. *)
Lemma startOfDay_is_local_midnight (e : Env) (t : Z) :
  startOfDay e t <= t < startOfDay e t + msPerDay
  /\ (startOfDay e t + tzOffset e) mod msPerDay = 0.
Proof.
  unfold startOfDay.
  assert (Hpos : 0 < msPerDay) by reflexivity.
  pose proof (Z.mod_pos_bound (t + tzOffset e) msPerDay Hpos) as Hb.
  split; [lia|].
  replace (t - (t + tzOffset e) mod msPerDay + tzOffset e)
    with ((t + tzOffset e) - (t + tzOffset e) mod msPerDay) by lia.
  rewrite Zminus_mod, Zmod_mod, Z.sub_diag. reflexivity.
Qed.





(** ** Rules of [wp] *)

Lemma wp_ret {A} (a : A) (Q : Res A -> Ctx -> Prop) (c : Ctx) :
  Q (Val a) c -> wp (ret a) Q c.
Proof. exact (fun H => H). Qed.

Lemma wp_throw {A} (e : ApiCall.JsError) (Q : Res A -> Ctx -> Prop) (c : Ctx) :
  Q (Thrown e) c -> wp (throw e) Q c.
Proof. exact (fun H => H). Qed.

Lemma wp_get (Q : Res Ctx -> Ctx -> Prop) (c : Ctx) :
  Q (Val c) c -> wp get Q c.
Proof. exact (fun H => H). Qed.

Lemma wp_modify (f : Ctx -> Ctx) (Q : Res unit -> Ctx -> Prop) (c : Ctx) :
  Q (Val tt) (f c) -> wp (modify f) Q c.
Proof. exact (fun H => H). Qed.

Lemma wp_bind {A B} (m : M A) (k : A -> M B) (Q : Res B -> Ctx -> Prop) (c : Ctx) :
  wp m (fun r c' => match r with
                    | Val a => wp (k a) Q c'
                    | Thrown e => Q (Thrown e) c'
                    end) c ->
  wp (bind m k) Q c.
Proof. unfold wp, bind. destruct (m c) as [[a|e] c']; simpl; auto. Qed.

Lemma wp_tryCatch {A} (m : M A) (h : ApiCall.JsError -> M A)
  (Q : Res A -> Ctx -> Prop) (c : Ctx) :
  wp m (fun r c' => match r with
                    | Val a => Q (Val a) c'
                    | Thrown e => wp (h e) Q c'
                    end) c ->
  wp (tryCatch m h) Q c.
Proof. unfold wp, tryCatch. destruct (m c) as [[a|e] c']; simpl; auto. Qed.

Lemma wp_run (h : M Outcome) (Q : Outcome -> Ctx -> Prop) (c : Ctx) :
  wp h (fun r c' => Q (settle r) c') c ->
  Q (fst (run h c)) (snd (run h c)).
Proof. unfold wp, run. destruct (h c) as [[o|e] c']; simpl; auto. Qed.

(** Projections of a context through its setters. *)
Ltac norm_ctx :=
  cbn [db reqUser apiCall apiCallSlot clock trace headers
       setDb setReqUser setApiCall setApiCallSlot setClock logSite setHeaders
       writeApiCall
       users apicalls pricings settle fmap option_fmap option_map
       User.id User.role User.plan User.usage User.totalSpent
       User.totalCalls User.monthlyReset User.monthlyCalls User.lastCallAt
       User.clearMonthly User.bumpUsage User.setUsage].

(** Normal form of a term that reads a context. *)
Ltac norm_goal := cbn beta iota; norm_ctx.

(** One step of a computation, in program order. *)
Ltac wp_step :=
  lazy beta iota;
  lazymatch goal with
  | |- wp (bind _ _) _ _ => apply wp_bind
  | |- wp (tryCatch _ _) _ _ => apply wp_tryCatch
  | |- wp (ret _) _ _ => apply wp_ret
  | |- wp (throw _) _ _ => apply wp_throw
  | |- wp get _ _ => apply wp_get
  | |- wp (modify _) _ _ => apply wp_modify
  | |- wp (match ?x with _ => _ end) _ _ =>
      let x' := eval cbn [db reqUser apiCall apiCallSlot clock trace headers
                          setDb setReqUser setApiCall setApiCallSlot setClock
                          logSite setHeaders writeApiCall users apicalls
                          pricings User.id User.role User.plan User.usage
                          User.totalCalls User.monthlyReset User.monthlyCalls
                          User.lastCallAt User.clearMonthly User.bumpUsage
                          User.setUsage] in x in
      change x with x'; lazy beta iota;
      lazymatch goal with
      | |- wp (match ?y with _ => _ end) _ _ =>
          first [ match goal with H : y = _ |- _ => rewrite H end
                | destruct y eqn:? ]
      | |- _ => idtac
      end
  | |- wp (await _ _ _) _ _ => unfold await
  | |- wp (saveUser _ _) _ _ => unfold saveUser
  | |- wp (getPlan _ _) _ _ => unfold getPlan
  | |- wp (aggregate _ _ _) _ _ => unfold aggregate
  | |- wp (checkMonthlyReset _ _ _) _ _ => unfold checkMonthlyReset
  | |- wp (incrementUsage _ _ _) _ _ => unfold incrementUsage
  | |- wp (saveApiCall _ _ _) _ _ => unfold saveApiCall
  | |- wp (markCompleted _ _ _) _ _ => unfold markCompleted
  | |- wp (markFailed _ _ _) _ _ => unfold markFailed
  | |- wp (summarise _) _ _ => unfold summarise
  | |- wp (settled _) _ _ => unfold settled
  | |- wp (summariseBatch _) _ _ => unfold summariseBatch
  | |- wp (onError _ _) _ _ => unfold onError
  | |- wp (recordAndWork _ _ _ _) _ _ => unfold recordAndWork
  | |- wp (getSummary _ _) _ _ => unfold getSummary
  | |- wp (getBatchSummaries _ _) _ _ => unfold getBatchSummaries
  | |- wp (controller _ _ _) _ _ => unfold controller
  | |- wp (rateLimit _ _) _ _ => unfold rateLimit
  end.

(** ** The summary handlers *)

Arguments User.canMakeApiCall : simpl never.
Arguments Pricing.hasFeature : simpl never.
Arguments truthy : simpl never.
Arguments ApiCall.preSave : simpl never.


(** ** The batch summariser *)

(** With a batch size of at least 1 the loop ends within one iteration per
    remaining item, and has then appended one result per remaining item, in
    order. *)
Lemma loop_settles (fails : nat -> bool) (items : list string) (b : Z) :
  1 <= b ->
  forall (fuel : nat) (i : Z) (results : list Summarizer.ItemResult) (waits : Z),
    0 <= i ->
    (Z.to_nat (Z.of_nat (length items) - i) < fuel)%nat ->
    exists w,
      Summarizer.loop fails items b fuel i results waits
      = Some ((results
               ++ imap (fun k _ => Summarizer.summariseItem fails (Z.to_nat i + k))
                    (drop (Z.to_nat i) items))%list, w).
Proof.
  intros Hb. induction fuel as [|fuel IH]; intros i results waits Hi Hfuel; [lia|].
  cbn [Summarizer.loop].
  destruct (Z.ltb_spec i (Z.of_nat (length items))) as [Hlt|Hge].
  - destruct (IH (i + b)
                (results ++ imap (fun k _ => Summarizer.summariseItem fails
                                    (Z.to_nat (Summarizer.sliceIndex
                                       (Z.of_nat (length items)) i) + k))
                             (Summarizer.slice items i (i + b)))%list
                (if i + b <? Z.of_nat (length items) then waits + 1 else waits))
      as [w Hw]; [lia | lia |].
    exists w. rewrite Hw. f_equal. f_equal. rewrite <- app_assoc. f_equal.
    unfold Summarizer.slice, Summarizer.sliceIndex.
    destruct (Z.ltb_spec i 0); [lia|].
    destruct (Z.ltb_spec (i + b) 0); [lia|].
    rewrite (Z.min_l i) by lia.
    set (m := Z.to_nat (Z.min (i + b) (Z.of_nat (length items)) - i)).
    rewrite <- (take_drop m (drop (Z.to_nat i) items)) at 2.
    rewrite imap_app. f_equal.
    rewrite length_take, length_drop, drop_drop.
    assert (Hm : (m `min` (length items - Z.to_nat i) = m)%nat) by (subst m; lia).
    rewrite Hm.
    destruct (Z.le_gt_cases (Z.of_nat (length items)) (i + b)) as [Hend|Hmore].
    + rewrite (drop_ge items (Z.to_nat (i + b))) by lia.
      rewrite (drop_ge items (Z.to_nat i + m)) by (subst m; lia).
      reflexivity.
    + assert (Heq : (Z.to_nat i + m)%nat = Z.to_nat (i + b)) by (subst m; lia).
      rewrite Heq. apply imap_ext. intros k x _. f_equal. lia.
  - exists waits. rewrite drop_ge by lia. rewrite app_nil_r. reflexivity.
Qed.

(** With a batch size of 0 or less and at least one item, the loop never
    ends: no number of iterations is enough. *)
Lemma loop_never_settles (fails : nat -> bool) (items : list string) (b : Z) :
  b <= 0 ->
  items <> [] ->
  forall (fuel : nat) (i : Z) (results : list Summarizer.ItemResult) (waits : Z),
    i <= 0 ->
    Summarizer.loop fails items b fuel i results waits = None.
Proof.
  intros Hb Hitems. induction fuel as [|fuel IH]; intros i results waits Hi;
    [reflexivity|].
  cbn [Summarizer.loop].
  assert (0 < Z.of_nat (length items)) by (destruct items; [contradiction | simpl; lia]).
  destruct (Z.ltb_spec i (Z.of_nat (length items))); [|lia].
  apply IH. lia.
Qed.

(** The batch handler always records zero tokens: no entry of the result
    array carries [metadata.tokensUsed]. *)
Lemma batchTokens_zero (results : list Summarizer.ItemResult) :
  batchTokens results = ApiCall.mkTokens 0 0 0.
Proof.
  unfold batchTokens.
  assert (H : forall acc,
            fold_left (fun acc result =>
                         match result with
                         | Summarizer.Summarised => acc + 0
                         | Summarizer.ItemError => acc
                         end) results acc = acc).
  { induction results as [|r results IH]; intros acc; simpl; [reflexivity|].
    destruct r; rewrite IH; lia. }
  rewrite H. reflexivity.
Qed.

Lemma generateBatchSummaries_settles (fails : nat -> bool) (items : list string)
  (optionsBatchSize : option Z) :
  (forall b, optionsBatchSize = Some b -> 1 <= b) ->
  exists waits,
    Summarizer.generateBatchSummaries fails items optionsBatchSize
    = Some (imap (fun k _ => Summarizer.summariseItem fails k) items, waits).
Proof.
  intros Hb. unfold Summarizer.generateBatchSummaries.
  destruct (loop_settles fails items (default 5 optionsBatchSize)) with
    (fuel := S (length items)) (i := 0) (results := @nil Summarizer.ItemResult)
    (waits := 0) as [w Hw].
  - destruct optionsBatchSize as [b|]; simpl; [apply Hb; reflexivity | lia].
  - lia.
  - lia.
  - exists w. rewrite Hw. reflexivity.
Qed.

(** Writing over the last element. *)
Lemma insert_at_end {A} (l : list A) (x y : A) :
  <[length l := y]> (l ++ [x])%list = (l ++ [y])%list.
Proof.
  induction l as [|a l IH]; simpl; [reflexivity|]. now rewrite IH.
Qed.

(** What a single summary whose summarisation throws leaves behind. *)
Lemma getSummary_failed_work (addMonth : Z -> Z) (e : Env) (c : Ctx) :
  faults e CtWork = true ->
  apiCall c = None ->
  apiCallSlot c = None ->
  wp (getSummary addMonth e)
     (fun r c' =>
        settle r <> Json 200 "success"
        /\ settle r <> Unanswered
        /\ (reqUser c' = reqUser c
            \/ reqUser c' = User.clearMonthly (clock c) (reqUser c))
        /\ (users (db c') = users (db c)
            \/ users (db c')
               = <[User.id (reqUser c) := User.clearMonthly (clock c) (reqUser c)]>
                   (users (db c)))
        /\ (forall a, apiCall c' = Some a -> ApiCall.state a = ApiCall.failed)
        /\ exists added,
             apicalls (db c') = (apicalls (db c) ++ added)%list
             /\ (length added <= 1)%nat
             /\ (faults e CtSaveFailed = false ->
                 Forall (fun a => ApiCall.state a = ApiCall.failed) added)
             /\ (faults e CtSaveFailed = true ->
                 Forall (fun a => ApiCall.state a = ApiCall.pending) added))
     c.
Proof.
  intros Hwork Hfresh Hslot. destruct c as [d u a s t tr h].
  simpl in Hfresh, Hslot. subst a s.
  repeat wp_step; norm_goal.
  all: try match goal with H : _ <$> Some _ = None |- _ => discriminate H end.
  all: split; [discriminate|]; split; [discriminate|].
  all: split; [auto|]; split; [auto|].
  all: split; [try discriminate; try (intros a [= <-]; reflexivity)|].
  all: unfold writtenEvents, writtenSlot, ApiCall.preSave; simpl.
  all: first
    [ exists []; rewrite app_nil_r; split; [reflexivity|]; split; [simpl; lia|];
      split; intros _; constructor
    | eexists [_]; split; [first [reflexivity | apply insert_at_end]|];
      split; [simpl; lia|];
      split; intros Hsave; first [congruence | repeat constructor] ].
Qed.

(** ** Batch requests *)

(** C2: a batch of two items on the seeded basic plan is accepted, its event
    is priced for two items (0.02), and the monthly counter goes from 0 to 1,
    not to 2; a batch of five with three calls left is refused and leaves the
    store as it was. *)
Theorem C2_batch_of_two_is_counted_once :
  let u := Fixture.user "user" "basic" 0 in
  let d := Fixture.store u [] Fixture.catalog in
  let e := Fixture.request Fixture.noon Fixture.noFaults ["Rocq"; "OCaml"] in
  let full := Fixture.store (Fixture.user "user" "basic" 997) [] Fixture.catalog in
  let five := Fixture.request Fixture.noon Fixture.noFaults ["a"; "b"; "c"; "d"; "e"] in
  fst (handle Fixture.month30 e Batch 7 d) = Json 200 "success"
  /\ (ApiCall.cost <$> apicalls (snd (handle Fixture.month30 e Batch 7 d)))
     = [(0.01 * 2)%Q]
  /\ storedMonthlyCalls (snd (handle Fixture.month30 e Batch 7 d)) 7 = Some 1
  /\ handle Fixture.month30 five Batch 7 full
     = (Json 429 "Insufficient API calls remaining for batch processing", full).
Proof. vm_compute. repeat split; reflexivity. Qed.


(** ** The monthly limit over a run of requests *)

Lemma run_fst (h : M Outcome) (c : Ctx) : fst (run h c) = settle (fst (h c)).
Proof. unfold run. destruct (h c) as [[o|e] c']; reflexivity. Qed.

Lemma run_snd (h : M Outcome) (c : Ctx) : snd (run h c) = snd (h c).
Proof. unfold run. destruct (h c) as [[o|e] c']; reflexivity. Qed.

(** *** Rules of [keeps] *)

Section Keeps.

Variable I : Ctx -> Prop.

Lemma keeps_ret {A} (a : A) : keeps I (ret a).
Proof. intros c H. exact H. Qed.

Lemma keeps_throw {A} (e : ApiCall.JsError) : keeps I (throw (A := A) e).
Proof. intros c H. exact H. Qed.

Lemma keeps_get : keeps I get.
Proof. intros c H. exact H. Qed.

Lemma keeps_modify (f : Ctx -> Ctx) :
  (forall c, I c -> I (f c)) -> keeps I (modify f).
Proof. intros Hf c H. apply Hf, H. Qed.

Lemma keeps_bind {A B} (m : M A) (k : A -> M B) :
  keeps I m -> (forall a, keeps I (k a)) -> keeps I (bind m k).
Proof.
  intros Hm Hk c H. unfold bind. specialize (Hm c H).
  destruct (m c) as [[a|e] c']; simpl in *; [apply Hk, Hm | exact Hm].
Qed.

Lemma keeps_bind_get {B} (k : Ctx -> M B) :
  (forall c0, I c0 -> keeps I (k c0)) -> keeps I (bind get k).
Proof. intros Hk c H. unfold bind, get. apply (Hk c H c H). Qed.

Lemma keeps_tryCatch {A} (m : M A) (h : ApiCall.JsError -> M A) :
  keeps I m -> (forall e, keeps I (h e)) -> keeps I (tryCatch m h).
Proof.
  intros Hm Hh c H. unfold tryCatch. specialize (Hm c H).
  destruct (m c) as [[a|e] c']; simpl in *; [exact Hm | apply Hh, Hm].
Qed.

Lemma keeps_wp {A} (m : M A) (c : Ctx) :
  keeps I m -> I c -> wp m (fun _ c' => I c') c.
Proof. intros Hm H. apply Hm, H. Qed.

End Keeps.

(** One step through the structure of a program; what is left are the
    context updates of its [modify] calls. *)
Ltac keeps_step :=
  lazymatch goal with
  | |- keeps _ (bind get _) => apply keeps_bind_get; intros ? ?
  | |- keeps _ (bind _ _) => apply keeps_bind; [|intros ?]
  | |- keeps _ (tryCatch _ _) => apply keeps_tryCatch; [|intros ?]
  | |- keeps _ (ret _) => apply keeps_ret
  | |- keeps _ (throw _) => apply keeps_throw
  | |- keeps _ get => apply keeps_get
  | |- keeps _ (modify _) => apply keeps_modify; intros ? ?
  | |- keeps _ (match ?x with _ => _ end) => destruct x
  | |- keeps _ (await _ _ _) => unfold await
  | |- keeps _ (saveUser _ _) => unfold saveUser
  | |- keeps _ (getPlan _ _) => unfold getPlan
  | |- keeps _ (aggregate _ _ _) => unfold aggregate
  | |- keeps _ (checkMonthlyReset _ _ _) => unfold checkMonthlyReset
  | |- keeps _ (incrementUsage _ _ _) => unfold incrementUsage
  | |- keeps _ (saveApiCall _ _ _) => unfold saveApiCall
  | |- keeps _ (markCompleted _ _ _) => unfold markCompleted
  | |- keeps _ (markFailed _ _ _) => unfold markFailed
  | |- keeps _ (summarise _) => unfold summarise
  | |- keeps _ (settled _) => unfold settled
  | |- keeps _ (summariseBatch _) => unfold summariseBatch
  | |- keeps _ (onError _ _) => unfold onError
  | |- keeps _ (recordAndWork _ _ _ _) => unfold recordAndWork
  | |- keeps _ (getSummary _ _) => unfold getSummary
  | |- keeps _ (getBatchSummaries _ _) => unfold getBatchSummaries
  | |- keeps _ (controller _ _ _) => unfold controller
  | |- keeps _ (rateLimit _ _) => unfold rateLimit
  end.

(** A context update that leaves the user in memory and the stored users
    alone, or resets or charges the user in memory, or saves it, keeps
    [HeldCtx]. *)
Ltac close_held :=
  repeat match goal with
  | H : HeldCtx _ _ _ _ _ |- _ => destruct H as (? & ? & ? & ? & ? & ?)
  end;
  unfold HeldCtx, Held in *; norm_goal;
  repeat match goal with
  | H : User.id (reqUser _) = _ |- _ => rewrite H
  end;
  rewrite ?lookup_insert_eq;
  repeat match goal with |- _ /\ _ => split end;
  try assumption; try reflexivity; try lia.

(** Whatever a request does, the middleware keeps [HeldCtx]. *)
Lemma rateLimit_keeps_held (addMonth : Z -> Z) (e : Env)
  (uid : Z) (rl pl : string) (cat : list Pricing.t) :
  keeps (HeldCtx uid rl pl cat) (rateLimit addMonth e).
Proof. repeat keeps_step; close_held. Qed.

(** Whatever a request does, both handlers keep [HeldCtx]. *)
Lemma controller_keeps_held (addMonth : Z -> Z) (e : Env) (ep : Endpoint)
  (uid : Z) (rl pl : string) (cat : list Pricing.t) :
  keeps (HeldCtx uid rl pl cat) (controller addMonth e ep).
Proof. destruct ep; repeat keeps_step; close_held. Qed.

Lemma startCtx_held (e : Env) (uid : Z) (rl pl : string)
  (cat : list Pricing.t) (d : Db) (u : User.t) :
  Held uid rl pl cat d -> users d !! uid = Some u ->
  HeldCtx uid rl pl cat (startCtx e d u).
Proof.
  intros Hd Hu. pose proof Hd as [Hcat Hst]. rewrite Hu in Hst.
  destruct Hst as (Hid & Hrole & Hplan & Hnn).
  unfold HeldCtx. simpl. auto.
Qed.

(** One request through the route keeps [Held]. *)
Lemma handle_keeps_held (addMonth : Z -> Z) (e : Env) (ep : Endpoint)
  (uid : Z) (rl pl : string) (cat : list Pricing.t) (d : Db) :
  Held uid rl pl cat d ->
  Held uid rl pl cat (snd (handle addMonth e ep uid d)).
Proof.
  intros Hd. unfold handle.
  destruct (users d !! uid) as [u|] eqn:Hu; [|exact Hd].
  pose proof (rateLimit_keeps_held addMonth e uid rl pl cat _
                (startCtx_held e uid rl pl cat d u Hd Hu)) as H1.
  rewrite <- run_snd in H1.
  destruct (run (rateLimit addMonth e) (startCtx e d u)) as [o c1].
  simpl in H1.
  assert (Hdb : Held uid rl pl cat (db c1)) by apply H1.
  destruct o; try exact Hdb.
  pose proof (controller_keeps_held addMonth e ep uid rl pl cat c1 H1) as H2.
  rewrite <- run_snd in H2.
  destruct (run (controller addMonth e ep) c1) as [o2 c2]. simpl in *.
  apply H2.
Qed.

(** Any run of requests keeps [Held]. *)
Lemma serve_keeps_held (addMonth : Z -> Z) (uid : Z) (rl pl : string)
  (cat : list Pricing.t) (rs : list Request) :
  forall d, Held uid rl pl cat d -> Held uid rl pl cat (serve addMonth uid rs d).
Proof.
  unfold serve. induction rs as [|r rs IH]; intros d Hd; simpl.
  - exact Hd.
  - apply IH, handle_keeps_held, Hd.
Qed.

Lemma wp_mono {A} (m : M A) (Q Q' : Res A -> Ctx -> Prop) (c : Ctx) :
  wp m Q c -> (forall r c', Q r c' -> Q' r c') -> wp m Q' c.
Proof. unfold wp. intros H HQ. apply HQ, H. Qed.

(** The work of the two endpoints. *)
Ltac worker_cases := first [left; reflexivity | right; reflexivity].

(** The shared tail of the handlers answers 200 only after it has charged
    the user in memory and saved that document. *)
Lemma recordAndWork_success (e : Env) (ep : string) (cost : Q)
  (worker : M (option WorkResult)) (c : Ctx) :
  worker = settled (summarise e) \/ worker = summariseBatch e ->
  wp (recordAndWork e ep cost worker)
     (fun r c' =>
        r = Val (Json 200 "success") ->
        reqUser c' = User.bumpUsage (clock c') cost (reqUser c)
        /\ users (db c') = <[User.id (reqUser c) := reqUser c']> (users (db c)))
     c.
Proof.
  intros [-> | ->]; repeat wp_step; norm_goal; intros [=]. all: split; reflexivity.
Qed.

(** The [catch] block never answers 200. *)
Lemma onError_not_success (e : Env) (err : ApiCall.JsError) (c : Ctx) :
  wp (onError e err) (fun r _ => r <> Val (Json 200 "success")) c.
Proof. repeat wp_step; norm_goal; discriminate. Qed.

Ltac norm_in H :=
  cbn [db reqUser apiCall apiCallSlot clock trace headers
       setDb setReqUser setApiCall setApiCallSlot setClock logSite setHeaders
       writeApiCall users apicalls pricings
       User.id User.role User.plan User.usage User.totalSpent
       User.totalCalls User.monthlyReset User.monthlyCalls User.lastCallAt
       User.clearMonthly User.bumpUsage User.setUsage] in H.

(** A handler answers 200 only when it charged the user exactly once and
    saved the result.  The charge is made on top of the monthly reset of
    the document it was given when that reset was due on entry, and on top
    of that document otherwise; a batch is served only when the monthly
    counter it is charged on, plus the number of its items, is within the
    monthly limit of the plan. *)
Lemma controller_success (addMonth : Z -> Z) (e : Env) (ep : Endpoint) (c : Ctx) :
  wp (controller addMonth e ep)
     (fun r c' =>
        r = Val (Json 200 "success") ->
        exists base cost,
          base = (if User.shouldResetMonthlyUsage addMonth (clock c) (reqUser c)
                  then User.clearMonthly (clock c) (reqUser c)
                  else reqUser c)
          /\ reqUser c' = User.bumpUsage (clock c') cost base
          /\ users (db c') !! User.id (reqUser c) = Some (reqUser c')
          /\ match ep with
             | Summary => True
             | Batch =>
                 exists p,
                   Pricing.getPlan (pricings (db c)) (User.plan (reqUser c)) = Some p
                   /\ User.monthlyCalls (User.usage base)
                      + Z.of_nat (length (items e))
                      <= Pricing.monthlyCalls (Pricing.limits p)
             end)
     c.
Proof.
  destruct ep;
    repeat lazymatch goal with
    | |- wp (recordAndWork _ _ _ _) _ _ =>
        eapply wp_mono; [apply recordAndWork_success; worker_cases|];
        intros [?|?] ? Hrw; lazy beta iota;
        [ intros Heq; destruct (Hrw Heq) as [Hu Hdb]; norm_in Hu; norm_in Hdb;
          eexists _, _; split; [reflexivity|]; split; [exact Hu|];
          split; [rewrite Hdb; apply lookup_insert_eq|];
          first [ exact I
                | eexists; split; [reflexivity|]; norm_goal;
                  repeat match goal with
                  | H : (_ <? _) = false |- _ => apply Z.ltb_ge in H
                  end; norm_ctx; lia ]
        | ]
    | |- wp (onError _ _) _ _ =>
        eapply wp_mono; [apply onError_not_success|];
        intros ? ? Hne Heq; contradiction
    | |- wp _ _ _ => wp_step
    | |- _ => norm_goal; intros [=]
    end.
Qed.

(** A batch that is answered 200 has raised the monthly counter by one,
    however many items it carried. *)
Corollary batch_success_adds_one (addMonth : Z -> Z) (e : Env) (c : Ctx) :
  fst (run (getBatchSummaries addMonth e) c) = Json 200 "success" ->
  exists base,
    (base = reqUser c \/ base = User.clearMonthly (clock c) (reqUser c))
    /\ User.monthlyCalls
         (User.usage (reqUser (snd (run (getBatchSummaries addMonth e) c))))
       = User.monthlyCalls (User.usage base) + 1.
Proof.
  intros Ho. pose proof (controller_success addMonth e Batch c) as Hs.
  unfold wp, controller in Hs. rewrite run_fst in Ho. rewrite run_snd.
  destruct (getBatchSummaries addMonth e c) as [[o|err] c']; simpl in *;
    [subst o | discriminate].
  destruct (Hs eq_refl) as (base & cost & Hbase & Hreq & _).
  exists base. split.
  - subst base.
    destruct (User.shouldResetMonthlyUsage addMonth (clock c) (reqUser c)); auto.
  - rewrite Hreq. reflexivity.
Qed.

(** A batch whose preconditions hold is answered 200 whatever its items do:
    the service turns the failure of an item into an entry of its result, so
    neither [itemFails] nor a failure at [CtWork] reaches the handler. *)
Lemma batch_is_served (addMonth : Z -> Z) (e : Env) (c : Ctx) (p : Pricing.t) :
  validBody e = true ->
  (forall s, s <> CtWork -> faults e s = false) ->
  Pricing.getPlan (pricings (db c)) (User.plan (reqUser c)) = Some p ->
  Pricing.hasFeature p "batchProcessing" = true ->
  Z.of_nat (length (items e)) <= Pricing.batchSize (Pricing.limits p) ->
  (if User.shouldResetMonthlyUsage addMonth (clock c) (reqUser c)
   then 0 else User.monthlyCalls (User.usage (reqUser c)))
  + Z.of_nat (length (items e)) <= Pricing.monthlyCalls (Pricing.limits p) ->
  (forall b, optionsBatchSize e = Some b -> 1 <= b) ->
  wp (getBatchSummaries addMonth e) (fun r _ => r = Val (Json 200 "success")) c.
Proof.
  intros Hvalid Hstore Hplan Hfeature Hsize Hquota Hchunk.
  assert (Hv : negb (validBody e) = false) by (rewrite Hvalid; reflexivity).
  assert (Hf : negb (Pricing.hasFeature p "batchProcessing") = false)
    by (rewrite Hfeature; reflexivity).
  assert (Hs : (Pricing.batchSize (Pricing.limits p) <? Z.of_nat (length (items e)))
               = false) by (apply Z.ltb_ge; exact Hsize).
  pose proof (Hstore CtGetPlan ltac:(discriminate)) as H1.
  pose proof (Hstore CtSaveReset ltac:(discriminate)) as H2.
  pose proof (Hstore CtSaveCall ltac:(discriminate)) as H3.
  pose proof (Hstore CtSaveCompleted ltac:(discriminate)) as H4.
  pose proof (Hstore CtSaveUsage ltac:(discriminate)) as H5.
  destruct (generateBatchSummaries_settles (itemFails e) (items e)
              (optionsBatchSize e) Hchunk) as [waits Hgen].
  repeat wp_step; norm_goal; try reflexivity.
  all: exfalso;
    repeat match goal with
    | H : (_ <? _) = true |- _ => apply Z.ltb_lt in H
    end; norm_ctx; simpl in *; lia.
Qed.



(** For a user who is not an administrator, when the plan lookup and the
    reset save do not reject, the middleware always settles, never answers
    200 itself, and calls [next()] only with a monthly counter below the
    catalog limit; the document it hands on is the monthly reset of the one
    it was given when that reset was due, and that document otherwise. *)
Lemma rateLimit_next (addMonth : Z -> Z) (e : Env) (c : Ctx) (p : Pricing.t) :
  User.role (reqUser c) <> "admin" ->
  faults e MwGetPlan = false ->
  faults e MwSaveReset = false ->
  Pricing.getPlan (pricings (db c)) (User.plan (reqUser c)) = Some p ->
  wp (rateLimit addMonth e)
     (fun r c' =>
        (exists o, r = Val o /\ o <> Json 200 "success")
        /\ (r = Val Next ->
            reqUser c'
            = (if User.shouldResetMonthlyUsage addMonth (clock c) (reqUser c)
               then User.clearMonthly (clock c) (reqUser c)
               else reqUser c)
            /\ User.monthlyCalls (User.usage (reqUser c'))
               < Pricing.monthlyCalls (Pricing.limits p)
            /\ clock c' = clock c
            /\ pricings (db c') = pricings (db c)))
     c.
Proof.
  intros Hrole Hlookup Hsave Hplan.
  assert (Hadmin : bool_decide (User.role (reqUser c) = "admin") = false)
    by (apply bool_decide_eq_false_2; exact Hrole).
  repeat wp_step; norm_goal;
    repeat match goal with
    | H : (_ <=? _) = false |- _ => apply Z.leb_gt in H
    end;
    (split; [eexists; split; [reflexivity | discriminate]|]);
    intros Heq; try discriminate Heq; repeat split; auto.
Qed.

(** At or above the catalog limit, with no reset due, the middleware answers
    MONTHLY_LIMIT_EXCEEDED and has changed nothing but its trace. *)
Lemma rateLimit_refuses (addMonth : Z -> Z) (e : Env) (c : Ctx) (p : Pricing.t) :
  User.role (reqUser c) <> "admin" ->
  faults e MwGetPlan = false ->
  Pricing.getPlan (pricings (db c)) (User.plan (reqUser c)) = Some p ->
  User.shouldResetMonthlyUsage addMonth (clock c) (reqUser c) = false ->
  Pricing.monthlyCalls (Pricing.limits p)
    <= User.monthlyCalls (User.usage (reqUser c)) ->
  rateLimit addMonth e c
  = (Val (Json 429 "MONTHLY_LIMIT_EXCEEDED"), logSite MwGetPlan c).
Proof.
  intros Hrole Hlookup Hplan Hreset Hfull.
  unfold_eff. simpl.
  rewrite bool_decide_eq_false_2 by exact Hrole.
  rewrite Hlookup. simpl. rewrite Hplan. simpl. rewrite Hreset. simpl.
  destruct (Z.leb_spec (Pricing.monthlyCalls (Pricing.limits p))
              (User.monthlyCalls (User.usage (reqUser c)))); [reflexivity | lia].
Qed.





(** * Further properties of the middleware, the models and the handlers *)

(** ** Effective price *)

(** X1: for a list price that is not negative, the effective price is never
    above the list price and never below nine tenths of it. *)
Theorem effective_price_within_discount_band (p : Pricing.t) (k : Z)
  (Hprice : (0 <= Pricing.pricePerCall p)%Q) :
  (Pricing.pricePerCall p * 0.9 <= Pricing.getEffectivePrice p k)%Q
  /\ (Pricing.getEffectivePrice p k <= Pricing.pricePerCall p)%Q
  /\ (0 <= Pricing.getEffectivePrice p k)%Q.
Proof.
  assert (H95 : (Pricing.pricePerCall p * 0.95 <= Pricing.pricePerCall p)%Q).
  { rewrite <- (Qmult_1_r (Pricing.pricePerCall p)) at 2.
    rewrite !(Qmult_comm (Pricing.pricePerCall p)).
    apply Qmult_le_compat_r; [discriminate | exact Hprice]. }
  assert (H90 : (Pricing.pricePerCall p * 0.9 <= Pricing.pricePerCall p * 0.95)%Q).
  { rewrite !(Qmult_comm (Pricing.pricePerCall p)).
    apply Qmult_le_compat_r; [discriminate | exact Hprice]. }
  assert (H0 : (0 <= Pricing.pricePerCall p * 0.9)%Q)
    by (apply Qmult_le_0_compat; [exact Hprice | discriminate]).
  destruct (getEffectivePrice_cases p k) as [[_ ->]|[[_ ->]|[_ ->]]].
  - repeat split; [apply Qle_refl | eapply Qle_trans; eassumption | exact H0].
  - repeat split; [exact H90 | exact H95 | eapply Qle_trans; eassumption].
  - repeat split; [eapply Qle_trans; eassumption | apply Qle_refl | exact Hprice].
Qed.

Lemma effective_price_within_discount_band_witness :
  (Pricing.pricePerCall Fixture.seedBasicPlan * 0.9
   <= Pricing.getEffectivePrice Fixture.seedBasicPlan 5000)%Q
  /\ (Pricing.getEffectivePrice Fixture.seedBasicPlan 5000
      <= Pricing.pricePerCall Fixture.seedBasicPlan)%Q.
Proof.
  assert (H : (0 <= Pricing.pricePerCall Fixture.seedBasicPlan)%Q)
    by (vm_compute; discriminate).
  pose proof (effective_price_within_discount_band Fixture.seedBasicPlan 5000 H)
    as (Hlo & Hhi & _).
  split; assumption.
Defined.

(** ** Plan lookup *)

(** [Pricing.getPlan] returns a document of the catalog that carries the
    requested name and is active. *)
Lemma getPlan_some (cat : list Pricing.t) (name : string) (p : Pricing.t) :
  Pricing.getPlan cat name = Some p ->
  In p cat /\ Pricing.plan p = name /\ Pricing.isActive p = true.
Proof.
  unfold Pricing.getPlan. intros H.
  pose proof (find_some _ _ H) as [Hin Hp].
  apply andb_true_iff in Hp as [Hn Ha].
  apply bool_decide_eq_true in Hn. auto.
Qed.

(** It finds nothing exactly when every document of that name is inactive. *)
Lemma getPlan_none (cat : list Pricing.t) (name : string) :
  Pricing.getPlan cat name = None
  <-> forall p, In p cat -> Pricing.plan p = name -> Pricing.isActive p = false.
Proof.
  unfold Pricing.getPlan. split.
  - intros H p Hin Hn.
    pose proof (find_none _ _ H p Hin) as Hp. simpl in Hp.
    rewrite bool_decide_eq_true_2 in Hp by exact Hn. exact Hp.
  - intros H. destruct (List.find _ cat) as [q|] eqn:Hf; [|reflexivity].
    pose proof (find_some _ _ Hf) as [Hin Hq].
    apply andb_true_iff in Hq as [Hn Ha]. apply bool_decide_eq_true in Hn.
    rewrite (H q Hin Hn) in Ha. discriminate.
Qed.

(** X2: when every catalog document of the user's plan is inactive (or there is
    none), the middleware answers a user who is not an administrator with
    500 PRICING_ERROR; it has read the catalog, reset nothing, counted
    nothing and left the store as it was. *)
Theorem rateLimit_inactive_plan_is_pricing_error
  (addMonth : Z -> Z) (e : Env) (c : Ctx)
  (Hrole : User.role (reqUser c) <> "admin")
  (Hlookup : faults e MwGetPlan = false)
  (Hinactive : forall p, In p (pricings (db c)) ->
                 Pricing.plan p = User.plan (reqUser c) ->
                 Pricing.isActive p = false) :
  rateLimit addMonth e c = (Val (Json 500 "PRICING_ERROR"), logSite MwGetPlan c)
  /\ db (snd (rateLimit addMonth e c)) = db c
  /\ reqUser (snd (rateLimit addMonth e c)) = reqUser c.
Proof.
  apply getPlan_none in Hinactive.
  assert (H : rateLimit addMonth e c
              = (Val (Json 500 "PRICING_ERROR"), logSite MwGetPlan c)).
  { unfold_eff. simpl.
    rewrite bool_decide_eq_false_2 by exact Hrole.
    rewrite Hlookup. simpl. rewrite Hinactive. reflexivity. }
  rewrite H. repeat split; reflexivity.
Qed.

Lemma rateLimit_inactive_plan_is_pricing_error_witness :
  let e := Fixture.request Fixture.noon Fixture.noFaults [] in
  let u := Fixture.user "user" "premium" 0 in
  let retired :=
    Pricing.mk "premium" 0.005%Q (Pricing.mkLimits 10000 1000 30 20) ∅ false in
  let c := startCtx e (Fixture.store u [] (retired :: Fixture.catalog)) u in
  fst (rateLimit Fixture.month30 e c) = Val (Json 500 "PRICING_ERROR").
Proof.
  intros e u retired c.
  assert (Hinactive : forall p, In p (pricings (db c)) ->
            Pricing.plan p = User.plan (reqUser c) -> Pricing.isActive p = false).
  { intros p Hin Hn. simpl in Hin.
    destruct Hin as [<-|[<-|[<-|[]]]]; [reflexivity | discriminate Hn | discriminate Hn]. }
  assert (Hrole : User.role (reqUser c) <> "admin") by discriminate.
  rewrite (proj1 (rateLimit_inactive_plan_is_pricing_error Fixture.month30 e c
                    Hrole eq_refl Hinactive)).
  reflexivity.
Defined.

(** ** Per-minute check *)

(** X3: once the plan is found and the monthly and daily checks have passed, the
    middleware counts the events of the user from the last sixty seconds,
    whatever their status, and answers RATE_LIMIT_EXCEEDED exactly when that
    count has reached [requestsPerMinute]; otherwise it calls [next()]. *)
Theorem rateLimit_minute_check_counts_last_minute
  (addMonth : Z -> Z) (e : Env) (c : Ctx) (p : Pricing.t) (stored : User.t)
  (Hrole : User.role (reqUser c) <> "admin")
  (Hplan : Pricing.getPlan (pricings (db c)) (User.plan (reqUser c)) = Some p)
  (Hstored : users (db c) !! User.id (reqUser c) = Some stored)
  (Hlookup : faults e MwGetPlan = false)
  (Hsave : faults e MwSaveReset = false)
  (Hcount : faults e MwAggDaily = false)
  (Hrecent : faults e MwAggMinute = false)
  (Hmonthly :
     (if User.shouldResetMonthlyUsage addMonth (clock c) (reqUser c)
      then 0 else User.monthlyCalls (User.usage (reqUser c)))
     < Pricing.monthlyCalls (Pricing.limits p))
  (Hdaily :
     Z.of_nat (length (List.filter
       (fun a => (ApiCall.user a =? User.id (reqUser c))
                 && (startOfDay e (clock c) <=? ApiCall.timestamp a))
       (apicalls (db c))))
     < Pricing.dailyCalls (Pricing.limits p)) :
  let recentCalls :=
    Z.of_nat (length (List.filter
      (fun a => (ApiCall.user a =? User.id (reqUser c))
                && (clock c - 60 * 1000 <=? ApiCall.timestamp a))
      (apicalls (db c)))) in
  (Pricing.requestsPerMinute (Pricing.limits p) <= recentCalls ->
   fst (rateLimit addMonth e c) = Val (Json 429 "RATE_LIMIT_EXCEEDED"))
  /\ (recentCalls < Pricing.requestsPerMinute (Pricing.limits p) ->
      fst (rateLimit addMonth e c) = Val Next).
Proof.
  intros recentCalls. subst recentCalls.
  unfold_eff. unfold countCallsSince. simpl.
  rewrite bool_decide_eq_false_2 by exact Hrole.
  rewrite Hlookup. simpl. rewrite Hplan. simpl.
  destruct (User.shouldResetMonthlyUsage addMonth (clock c) (reqUser c)) eqn:Hreset;
    simpl; rewrite ?Hsave, ?Hcount; simpl.
  - destruct (Z.leb_spec (Pricing.monthlyCalls (Pricing.limits p)) 0); [lia|].
    rewrite ?Hcount. simpl. rewrite lookup_insert_eq. simpl.
    match goal with |- context [Pricing.dailyCalls _ <=? ?n] =>
      destruct (Z.leb_spec (Pricing.dailyCalls (Pricing.limits p)) n); [lia|] end.
    rewrite ?Hrecent. simpl. rewrite lookup_insert_eq. simpl.
    match goal with |- context [Pricing.requestsPerMinute _ <=? ?n] =>
      destruct (Z.leb_spec (Pricing.requestsPerMinute (Pricing.limits p)) n) end;
      simpl; split; intros; first [reflexivity | lia].
  - destruct (Z.leb_spec (Pricing.monthlyCalls (Pricing.limits p))
                (User.monthlyCalls (User.usage (reqUser c)))); [lia|].
    rewrite ?Hcount. simpl. rewrite Hstored. simpl.
    match goal with |- context [Pricing.dailyCalls _ <=? ?n] =>
      destruct (Z.leb_spec (Pricing.dailyCalls (Pricing.limits p)) n); [lia|] end.
    rewrite ?Hrecent. simpl. rewrite Hstored. simpl.
    match goal with |- context [Pricing.requestsPerMinute _ <=? ?n] =>
      destruct (Z.leb_spec (Pricing.requestsPerMinute (Pricing.limits p)) n) end;
      simpl; split; intros; first [reflexivity | lia].
Qed.

Lemma rateLimit_minute_check_counts_last_minute_witness :
  let e := Fixture.request Fixture.noon Fixture.noFaults [] in
  let u := Fixture.user "user" "free" 1 in
  let d := Fixture.store u [Fixture.eventAt (Fixture.noon - 90000);
                            Fixture.eventAt (Fixture.noon - 30000);
                            Fixture.failedAt (Fixture.noon - 1000)]
             [Fixture.testFreePlan] in
  fst (rateLimit Fixture.month30 e (startCtx e d u))
  = Val (Json 429 "RATE_LIMIT_EXCEEDED").
Proof.
  intros e u d.
  assert (Hrole : User.role (reqUser (startCtx e d u)) <> "admin") by discriminate.
  refine (proj1 (rateLimit_minute_check_counts_last_minute Fixture.month30 e
                   (startCtx e d u) Fixture.testFreePlan u Hrole
                   eq_refl eq_refl eq_refl eq_refl eq_refl eq_refl _ _) _).
  - vm_compute. reflexivity.
  - vm_compute. reflexivity.
  - vm_compute. discriminate.
Defined.

(** ** What the middleware reports and what it touches *)

(** X4: the remaining counts the middleware puts into the response headers are
    all at least 1, and it sets them only on a request it lets through. *)
Theorem rateLimit_headers_are_positive
  (addMonth : Z -> Z) (e : Env) (c : Ctx) (m d r : Z)
  (Hnone : headers c = None)
  (Hset : headers (snd (rateLimit addMonth e c)) = Some (m, d, r)) :
  fst (rateLimit addMonth e c) = Val Next /\ 0 < m /\ 0 < d /\ 0 < r.
Proof.
  revert Hset.
  set (res := rateLimit addMonth e c).
  change (rateLimit addMonth e c) with res.
  pattern (fst res), (snd res). subst res.
  change (wp (rateLimit addMonth e)
            (fun r0 c' => headers c' = Some (m, d, r) ->
                          r0 = Val Next /\ 0 < m /\ 0 < d /\ 0 < r) c).
  repeat wp_step; norm_goal; rewrite ?Hnone; try discriminate.
  all: intros [= <- <- <-];
    repeat match goal with
    | H : (_ <=? _) = false |- _ => apply Z.leb_gt in H
    end.
  all: repeat split; try reflexivity; lia.
Qed.

Lemma rateLimit_headers_are_positive_witness :
  let e := Fixture.request Fixture.noon Fixture.noFaults [] in
  let u := Fixture.user "user" "free" 9 in
  let d := Fixture.store u [Fixture.eventAt (Fixture.noon - 30000)]
             [Fixture.testFreePlan] in
  headers (snd (rateLimit Fixture.month30 e (startCtx e d u))) = Some (1, 4, 1)
  /\ fst (rateLimit Fixture.month30 e (startCtx e d u)) = Val Next.
Proof.
  intros e u d.
  assert (Hset : headers (snd (rateLimit Fixture.month30 e (startCtx e d u)))
                 = Some (1, 4, 1)) by (vm_compute; reflexivity).
  split; [exact Hset|].
  exact (proj1 (rateLimit_headers_are_positive Fixture.month30 e (startCtx e d u)
                  1 4 1 eq_refl Hset)).
Defined.

Lemma rateLimit_footprint (addMonth : Z -> Z) (e : Env) (c : Ctx) :
  wp (rateLimit addMonth e)
     (fun _ c' =>
        apicalls (db c') = apicalls (db c)
        /\ pricings (db c') = pricings (db c)
        /\ apiCall c' = apiCall c
        /\ apiCallSlot c' = apiCallSlot c
        /\ clock c' = clock c
        /\ ((reqUser c' = reqUser c /\ users (db c') = users (db c))
            \/ (User.shouldResetMonthlyUsage addMonth (clock c) (reqUser c) = true
                /\ reqUser c' = User.clearMonthly (clock c) (reqUser c)
                /\ (users (db c') = users (db c)
                    \/ users (db c')
                       = <[User.id (reqUser c) := User.clearMonthly (clock c) (reqUser c)]>
                           (users (db c))))))
     c.
Proof.
  repeat wp_step; norm_goal;
    repeat match goal with |- _ /\ _ => split end; try reflexivity; auto.
Qed.

(** X5: the middleware never writes an event, never changes the catalog, the
    clock or the handler's event, and changes the user only by the monthly
    reset: the document in memory is the one it was given or its reset, and
    the stored users are unchanged or hold that reset document. *)
Theorem rateLimit_only_resets (addMonth : Z -> Z) (e : Env) (c : Ctx) :
  let c' := snd (rateLimit addMonth e c) in
  apicalls (db c') = apicalls (db c)
  /\ pricings (db c') = pricings (db c)
  /\ apiCall c' = apiCall c
  /\ apiCallSlot c' = apiCallSlot c
  /\ clock c' = clock c
  /\ ((reqUser c' = reqUser c /\ users (db c') = users (db c))
      \/ (User.shouldResetMonthlyUsage addMonth (clock c) (reqUser c) = true
          /\ reqUser c' = User.clearMonthly (clock c) (reqUser c)
          /\ (users (db c') = users (db c)
              \/ users (db c')
                 = <[User.id (reqUser c) := User.clearMonthly (clock c) (reqUser c)]>
                     (users (db c))))).
Proof. exact (rateLimit_footprint addMonth e c). Qed.

(** ** Monthly reset *)

(** X6: when adding a month to the present gives a later instant, a second
    [checkMonthlyReset] right after the first does nothing at all: no field
    changes, nothing is saved, and the reset date does not move. *)
Theorem checkMonthlyReset_is_idempotent
  (addMonth : Z -> Z) (e : Env) (site site' : Site) (c : Ctx)
  (Hlater : clock c < addMonth (clock c)) :
  let c1 := snd (checkMonthlyReset addMonth e site c) in
  User.shouldResetMonthlyUsage addMonth (clock c1) (reqUser c1) = false
  /\ checkMonthlyReset addMonth e site' c1 = (Val tt, c1).
Proof.
  intros c1.
  assert (H : User.shouldResetMonthlyUsage addMonth (clock c1) (reqUser c1) = false).
  { subst c1. unfold checkMonthlyReset, saveUser, await, bind, get, modify, throw, ret.
    destruct (User.shouldResetMonthlyUsage addMonth (clock c) (reqUser c)) eqn:Hdue.
    - destruct (faults e site); simpl;
        unfold User.shouldResetMonthlyUsage; simpl; apply Z.leb_gt; exact Hlater.
    - simpl. exact Hdue. }
  split; [exact H|].
  unfold checkMonthlyReset, bind, get. simpl. rewrite H. reflexivity.
Qed.

Lemma checkMonthlyReset_is_idempotent_witness :
  let e := Fixture.request (Fixture.noon + 40 * msPerDay) Fixture.noFaults [] in
  let u := Fixture.user "user" "free" 9 in
  let c := startCtx e (Fixture.store u [] Fixture.catalog) u in
  let c1 := snd (checkMonthlyReset Fixture.month30 e MwSaveReset c) in
  User.monthlyCalls (User.usage (reqUser c1)) = 0
  /\ checkMonthlyReset Fixture.month30 e CtSaveReset c1 = (Val tt, c1).
Proof.
  intros e u c c1. split; [reflexivity|].
  apply (checkMonthlyReset_is_idempotent Fixture.month30 e MwSaveReset CtSaveReset c).
  vm_compute. reflexivity.
Defined.

(** ** Invariants of a whole request and of a run of requests *)

(** A property of the context that the middleware and the handler keep
    holds of the store after the request. *)
Lemma handle_keeps (I : Ctx -> Prop) (addMonth : Z -> Z) (e : Env)
  (ep : Endpoint) (uid : Z) (d : Db) (u : User.t) :
  users d !! uid = Some u ->
  I (startCtx e d u) ->
  keeps I (rateLimit addMonth e) ->
  keeps I (controller addMonth e ep) ->
  exists c', I c' /\ snd (handle addMonth e ep uid d) = db c'.
Proof.
  intros Hu H0 Hmw Hct. unfold handle. rewrite Hu.
  pose proof (Hmw _ H0) as H1. rewrite <- run_snd in H1.
  destruct (run (rateLimit addMonth e) (startCtx e d u)) as [o c1]. simpl in H1.
  destruct o; try (exists c1; split; [exact H1 | reflexivity]).
  pose proof (Hct _ H1) as H2. rewrite <- run_snd in H2.
  destruct (run (controller addMonth e ep) c1) as [o2 c2]. simpl in *.
  exists c2. split; [exact H2 | reflexivity].
Qed.

Lemma writeApiCall_log_grows (old : list ApiCall.t) (c : Ctx) :
  LogGrows old c -> LogGrows old (writeApiCall c).
Proof.
  unfold LogGrows, writeApiCall, writtenEvents, writtenSlot. simpl.
  intros [[Hs Hl] | [Hs [x Hl]]]; rewrite Hs, Hl;
    destruct (apiCall c) as [a|]; simpl.
  - right. split; [reflexivity | exists a; reflexivity].
  - left. auto.
  - right. split; [reflexivity|]. exists a. apply insert_at_end.
  - right. split; [reflexivity | exists x; reflexivity].
Qed.

Ltac close_log :=
  lazymatch goal with
  | |- LogGrows _ (writeApiCall _) => apply writeApiCall_log_grows; assumption
  | H : LogGrows _ ?c |- LogGrows _ _ => exact H
  end.

Lemma rateLimit_log_grows (addMonth : Z -> Z) (e : Env) (old : list ApiCall.t) :
  keeps (LogGrows old) (rateLimit addMonth e).
Proof. repeat keeps_step; close_log. Qed.

Lemma controller_log_grows (addMonth : Z -> Z) (e : Env) (ep : Endpoint)
  (old : list ApiCall.t) :
  keeps (LogGrows old) (controller addMonth e ep).
Proof. destruct ep; repeat keeps_step; close_log. Qed.

(** A request never changes or removes an event that was stored before it,
    and adds at most one event. *)
Lemma handle_appends_at_most_one_event
  (addMonth : Z -> Z) (e : Env) (ep : Endpoint) (uid : Z) (d : Db) :
  exists added,
    apicalls (snd (handle addMonth e ep uid d)) = (apicalls d ++ added)%list
    /\ (length added <= 1)%nat.
Proof.
  destruct (users d !! uid) as [u|] eqn:Hu.
  - destruct (handle_keeps (LogGrows (apicalls d)) addMonth e ep uid d u Hu)
      as (c' & Hc' & ->).
    + left. split; reflexivity.
    + apply rateLimit_log_grows.
    + apply controller_log_grows.
    + destruct Hc' as [[_ Hl] | [_ [x Hl]]]; rewrite Hl.
      * exists []. rewrite app_nil_r. split; [reflexivity | simpl; lia].
      * exists [x]. split; [reflexivity | simpl; lia].
  - unfold handle. rewrite Hu. simpl. exists []. rewrite app_nil_r.
    split; [reflexivity | simpl; lia].
Qed.

(** X7: a request never changes or removes an event that was stored before it:
    over a run of requests the event collection only grows at its end, by at
    most one event per request. *)
Theorem serve_log_is_append_only
  (addMonth : Z -> Z) (uid : Z) (rs : list Request) (d : Db) :
  exists added,
    apicalls (serve addMonth uid rs d) = (apicalls d ++ added)%list
    /\ (length added <= length rs)%nat.
Proof.
  unfold serve. revert d. induction rs as [|r rs IH]; intros d; simpl.
  - exists []. rewrite app_nil_r. split; [reflexivity | simpl; lia].
  - destruct (handle_appends_at_most_one_event addMonth (rq_env r)
                (rq_endpoint r) uid d) as (a1 & H1 & Hl1).
    destruct (IH (snd (handle addMonth (rq_env r) (rq_endpoint r) uid d)))
      as (a2 & H2 & Hl2).
    exists (a1 ++ a2)%list. rewrite H2, H1, <- app_assoc.
    split; [reflexivity|]. rewrite length_app. lia.
Qed.

Ltac close_ledger :=
  repeat match goal with
  | H : LedgerCtx _ |- _ => destruct H as [[? ?] ?]
  end;
  unfold LedgerCtx, Ledger in *; norm_goal;
  (split; [split; try assumption; try lia|]);
  try assumption;
  try (intros k u; rewrite lookup_insert; case_decide;
       [ intros [= <-]; norm_goal; split; try assumption; lia | eauto ]).

Lemma rateLimit_keeps_ledger (addMonth : Z -> Z) (e : Env) :
  keeps LedgerCtx (rateLimit addMonth e).
Proof. repeat keeps_step; close_ledger. Qed.

Lemma controller_keeps_ledger (addMonth : Z -> Z) (e : Env) (ep : Endpoint) :
  keeps LedgerCtx (controller addMonth e ep).
Proof. destruct ep; repeat keeps_step; close_ledger. Qed.

(** X8: if every stored user has a monthly counter between 0 and the lifetime
    counter, this is still so after any run of requests: resets and charges
    never make the monthly counter negative or larger than [totalCalls]. *)
Theorem serve_keeps_ledger
  (addMonth : Z -> Z) (uid : Z) (rs : list Request) (d : Db)
  (Hd : forall k u, users d !! k = Some u -> Ledger u) :
  forall k u, users (serve addMonth uid rs d) !! k = Some u -> Ledger u.
Proof.
  unfold serve. revert d Hd. induction rs as [|r rs IH]; intros d Hd; simpl.
  - exact Hd.
  - apply IH.
    destruct (users d !! uid) as [u0|] eqn:Hu.
    + destruct (handle_keeps LedgerCtx addMonth (rq_env r) (rq_endpoint r)
                  uid d u0 Hu) as (c' & Hc' & ->).
      * split; [apply (Hd uid), Hu | exact Hd].
      * apply rateLimit_keeps_ledger.
      * apply controller_keeps_ledger.
      * apply Hc'.
    + unfold handle. rewrite Hu. exact Hd.
Qed.

Lemma serve_keeps_ledger_witness :
  let e := Fixture.request Fixture.noon Fixture.noFaults [] in
  let late := Fixture.request (Fixture.noon + 40 * msPerDay) Fixture.noFaults [] in
  let u := Fixture.user "user" "basic" 3 in
  let d := Fixture.store u [] Fixture.catalog in
  exists v,
    users (serve Fixture.month30 7
             [mkRequest Summary e; mkRequest Summary late] d) !! 7 = Some v
    /\ Ledger v.
Proof.
  intros e late u d.
  assert (Hd : forall k v, users d !! k = Some v -> Ledger v).
  { intros k v Hk. unfold d, Fixture.store in Hk. simpl in Hk.
    apply lookup_singleton_Some in Hk as [_ <-].
    split; simpl; lia. }
  eexists. split; [vm_compute; reflexivity|].
  apply (serve_keeps_ledger Fixture.month30 7
           [mkRequest Summary e; mkRequest Summary late] d Hd 7).
  vm_compute. reflexivity.
Defined.

Ltac close_isolated :=
  repeat match goal with
  | H : Isolated _ _ _ _ _ |- _ =>
      destruct H as (? & ? & (? & ? & ?) & (? & ? & ?) & ?)
  end;
  unfold Isolated, sameIdentity in *; norm_goal;
  repeat match goal with
  | H : User.id (reqUser _) = _ |- _ => rewrite H
  end;
  repeat match goal with
  | H : User.id ?u = ?uid |- context [<[User.id ?u := _]> _] => rewrite H
  end;
  repeat match goal with |- _ /\ _ => split end;
  try assumption; try congruence;
  try (eexists; split; [apply lookup_insert_eq | norm_goal; repeat split; congruence]);
  try (eexists; split; eassumption);
  try (intros k Hk; rewrite lookup_insert_ne by congruence; auto).

Lemma rateLimit_keeps_isolated (addMonth : Z -> Z) (e : Env) uid u0 others cat :
  keeps (Isolated uid u0 others cat) (rateLimit addMonth e).
Proof. repeat keeps_step; try exact H; try close_isolated. Qed.

Lemma controller_keeps_isolated (addMonth : Z -> Z) (e : Env) (ep : Endpoint)
  uid u0 others cat :
  keeps (Isolated uid u0 others cat) (controller addMonth e ep).
Proof. destruct ep; repeat keeps_step; try exact H; try close_isolated. Qed.

Lemma handle_keeps_isolated (addMonth : Z -> Z) (e : Env) (ep : Endpoint)
  (uid : Z) (u0 : User.t) (d : Db) :
  User.id u0 = uid ->
  (exists u, users d !! uid = Some u /\ sameIdentity u0 u) ->
  let d' := snd (handle addMonth e ep uid d) in
  pricings d' = pricings d
  /\ (exists u, users d' !! uid = Some u /\ sameIdentity u0 u)
  /\ forall k, k <> uid -> users d' !! k = users d !! k.
Proof.
  intros Hid (u & Hu & Hsame) d'. subst d'.
  destruct (handle_keeps (Isolated uid u0 (users d) (pricings d)) addMonth e ep
              uid d u Hu) as (c' & Hc' & ->).
  - unfold Isolated. simpl. repeat split; try apply Hsame; eauto.
  - apply rateLimit_keeps_isolated.
  - apply controller_keeps_isolated.
  - destruct Hc' as (_ & Hcat & _ & Hst & Hothers). auto.
Qed.

(** X9: whatever requests a user sends, they never change that user's id, role
    or plan, never touch the document of any other user, and never change
    the catalog. *)
Theorem serve_touches_only_the_caller
  (addMonth : Z -> Z) (uid : Z) (u0 : User.t) (rs : list Request) (d : Db)
  (Hu : users d !! uid = Some u0)
  (Hid : User.id u0 = uid) :
  let d' := serve addMonth uid rs d in
  pricings d' = pricings d
  /\ (exists u, users d' !! uid = Some u
                /\ User.id u = uid /\ User.role u = User.role u0
                /\ User.plan u = User.plan u0)
  /\ forall k, k <> uid -> users d' !! k = users d !! k.
Proof.
  intros d'. subst d'.
  assert (H : pricings (serve addMonth uid rs d) = pricings d
              /\ (exists u, users (serve addMonth uid rs d) !! uid = Some u
                            /\ sameIdentity u0 u)
              /\ forall k, k <> uid ->
                    users (serve addMonth uid rs d) !! k = users d !! k).
  { assert (H0 : exists u, users d !! uid = Some u /\ sameIdentity u0 u)
      by (exists u0; repeat split; auto).
    clear Hu. unfold serve. revert d H0.
    induction rs as [|r rs IH]; intros d H0; simpl.
    - auto.
    - destruct (handle_keeps_isolated addMonth (rq_env r) (rq_endpoint r)
                  uid u0 d Hid H0) as (Hcat & Hst & Hothers).
      destruct (IH _ Hst) as (Hcat' & Hst' & Hothers').
      split; [congruence|]. split; [exact Hst'|].
      intros k Hk. rewrite Hothers', Hothers by exact Hk. reflexivity. }
  destruct H as (Hcat & (u & Hl & Hi & Hr & Hp) & Hothers).
  split; [exact Hcat|]. split; [|exact Hothers].
  exists u. repeat split; congruence.
Qed.

Lemma serve_touches_only_the_caller_witness :
  let e := Fixture.request Fixture.noon Fixture.noFaults ["a"; "b"] in
  let u := Fixture.user "user" "basic" 3 in
  let other := User.mk 8 "user" "free" (User.mkUsage 50 0 50 None) 0 in
  let d := mkDb (<[8 := other]> {[ 7 := u ]}) [] Fixture.catalog in
  users (serve Fixture.month30 7 [mkRequest Summary e; mkRequest Batch e] d) !! 8
  = Some other.
Proof.
  intros e u other d.
  destruct (serve_touches_only_the_caller Fixture.month30 7 u
              [mkRequest Summary e; mkRequest Batch e] d eq_refl eq_refl)
    as (_ & _ & Hothers).
  rewrite Hothers by discriminate. reflexivity.
Defined.

(** ** What a served request leaves behind *)

(** When the shared tail of the handlers answers 200, it has appended one
    completed event and charged the user in memory and in the store. *)
Lemma recordAndWork_receipt (e : Env) (ep : string) (cost : Q)
  (worker : M (option WorkResult)) (c : Ctx) :
  worker = settled (summarise e) \/ worker = summariseBatch e ->
  apiCallSlot c = None ->
  wp (recordAndWork e ep cost worker)
     (fun r c' =>
        r = Val (Json 200 "success") ->
        exists ev,
          apicalls (db c') = (apicalls (db c) ++ [ev])%list
          /\ apiCall c' = Some ev
          /\ ApiCall.state ev = ApiCall.completed
          /\ ApiCall.user ev = User.id (reqUser c)
          /\ ApiCall.endpoint ev = ep
          /\ ApiCall.cost ev = cost
          /\ reqUser c' = User.bumpUsage (clock c') cost (reqUser c)
          /\ users (db c') = <[User.id (reqUser c) := reqUser c']> (users (db c)))
     c.
Proof.
  intros Hworker Hslot. destruct c as [d u a s t tr h]. simpl in Hslot. subst s.
  destruct Hworker as [-> | ->]; repeat wp_step; norm_goal; intros [=].
  all: eexists; split;
    [ unfold writtenEvents, writtenSlot; simpl; apply insert_at_end
    | repeat split; reflexivity ].
Qed.

Lemma controller_receipt (addMonth : Z -> Z) (e : Env) (ep : Endpoint) (c : Ctx) :
  apiCallSlot c = None ->
  wp (controller addMonth e ep)
     (fun r c' =>
        r = Val (Json 200 "success") ->
        exists ev base p,
          (base = reqUser c \/ base = User.clearMonthly (clock c) (reqUser c))
          /\ Pricing.getPlan (pricings (db c)) (User.plan (reqUser c)) = Some p
          /\ apicalls (db c') = (apicalls (db c) ++ [ev])%list
          /\ ApiCall.state ev = ApiCall.completed
          /\ ApiCall.user ev = User.id (reqUser c)
          /\ ApiCall.responseStatus ev = ApiCall.success
          /\ ApiCall.cost ev
             = match ep with
               | Summary =>
                   Pricing.getEffectivePrice p (User.monthlyCalls (User.usage base))
               | Batch =>
                   (Pricing.getEffectivePrice p (User.monthlyCalls (User.usage base))
                    * inject_Z (Z.of_nat (length (items e))))%Q
               end
          /\ User.totalSpent (reqUser c') = (User.totalSpent base + ApiCall.cost ev)%Q
          /\ User.totalCalls (User.usage (reqUser c'))
             = User.totalCalls (User.usage base) + 1
          /\ User.monthlyCalls (User.usage (reqUser c'))
             = User.monthlyCalls (User.usage base) + 1
          /\ users (db c') !! User.id (reqUser c) = Some (reqUser c'))
     c.
Proof.
  intros Hslot.
  destruct ep;
    repeat lazymatch goal with
    | |- wp (recordAndWork _ _ _ _) _ ?X =>
        eapply wp_mono;
          [apply recordAndWork_receipt; [worker_cases | norm_goal; exact Hslot]|];
        intros [?|?] ? Hrw; lazy beta iota;
        [ intros Heq;
          destruct (Hrw Heq)
            as (ev & Hlog & _ & Hstate & Huser & _ & Hcost & Hu & Hdb);
          exists ev, (reqUser X); eexists;
          split; [norm_goal; auto|]; split; [reflexivity|];
          repeat match goal with |- _ /\ _ => split end;
          [ exact Hlog | exact Hstate | exact Huser
          | revert Hstate; unfold ApiCall.state;
            destruct (ApiCall.completedAt ev); [|discriminate];
            destruct (ApiCall.responseStatus ev); (reflexivity || discriminate)
          | exact Hcost
          | rewrite Hu, Hcost; reflexivity
          | rewrite Hu; reflexivity
          | rewrite Hu; reflexivity
          | rewrite Hdb; apply lookup_insert_eq ]
        | ]
    | |- wp (onError _ _) _ _ =>
        eapply wp_mono; [apply onError_not_success|];
        intros ? ? Hne Heq; contradiction
    | |- wp _ _ _ => wp_step
    | |- _ => norm_goal; intros [=]
    end.
Qed.

(** The middleware settles with [next()] or with a 429 or 500 answer. *)
Lemma rateLimit_outcomes (addMonth : Z -> Z) (e : Env) (c : Ctx) :
  wp (rateLimit addMonth e)
     (fun r _ => r = Val Next \/ exists code, r = Val (Json 429 code)
                                              \/ r = Val (Json 500 code))
     c.
Proof. repeat wp_step; norm_goal; eauto. Qed.

Lemma run_eq (h : M Outcome) (c : Ctx) :
  run h c = (settle (fst (h c)), snd (h c)).
Proof. unfold run. destruct (h c) as [[o|err] c']; reflexivity. Qed.

(** What a request answered 200 leaves in the store: one new event and the
    caller's document charged for it. *)
Lemma handle_receipt
  (addMonth : Z -> Z) (e : Env) (ep : Endpoint) (uid : Z) (d : Db) (u0 : User.t)
  (Hu : users d !! uid = Some u0)
  (Hid : User.id u0 = uid)
  (Hok : fst (handle addMonth e ep uid d) = Json 200 "success") :
  let d' := snd (handle addMonth e ep uid d) in
  exists ev u1 p k,
    apicalls d' = (apicalls d ++ [ev])%list
    /\ ApiCall.state ev = ApiCall.completed
    /\ ApiCall.user ev = uid
    /\ ApiCall.responseStatus ev = ApiCall.success
    /\ Pricing.getPlan (pricings d) (User.plan u0) = Some p
    /\ (k = User.monthlyCalls (User.usage u0) \/ k = 0)
    /\ ApiCall.cost ev
       = match ep with
         | Summary => Pricing.getEffectivePrice p k
         | Batch => (Pricing.getEffectivePrice p k
                     * inject_Z (Z.of_nat (length (items e))))%Q
         end
    /\ users d' !! uid = Some u1
    /\ User.totalCalls (User.usage u1) = User.totalCalls (User.usage u0) + 1
    /\ User.monthlyCalls (User.usage u1) = k + 1
    /\ User.totalSpent u1 = (User.totalSpent u0 + ApiCall.cost ev)%Q.
Proof.
  intros d'. subst d'. revert Hok. unfold handle. rewrite Hu.
  set (c0 := startCtx e d u0).
  pose proof (rateLimit_footprint addMonth e c0) as Hfp.
  pose proof (rateLimit_outcomes addMonth e c0) as Hout.
  unfold wp in Hfp, Hout. rewrite (run_eq (rateLimit addMonth e)).
  destruct (rateLimit addMonth e c0) as [r1 c1]. simpl in Hfp, Hout.
  destruct Hfp as (Hlog1 & Hcat1 & _ & Hslot1 & Hclock1 & Huser1).
  destruct Hout as [-> | (code & [-> | ->])]; simpl; try discriminate.
  pose proof (controller_receipt addMonth e ep c1 Hslot1) as Hrc. unfold wp in Hrc.
  rewrite run_eq. destruct (controller addMonth e ep c1) as [r2 c2]. simpl in Hrc.
  destruct r2 as [o2|err]; simpl; [|discriminate].
  intros ->.
  destruct (Hrc eq_refl)
    as (ev & base & p & Hbase & Hplan & Hlog & Hstate & Howner
        & Hsuccess & Hcost & Hspent & Htotal & Hmonthly & Hstored).
  assert (Hreq1 : reqUser c1 = u0 \/ reqUser c1 = User.clearMonthly (clock c0) u0).
  { destruct Huser1 as [[H _] | (_ & H & _)]; [left | right]; exact H. }
  assert (Hfacts : User.id base = uid /\ User.plan base = User.plan u0
                   /\ User.totalCalls (User.usage base) = User.totalCalls (User.usage u0)
                   /\ User.totalSpent base = User.totalSpent u0
                   /\ (User.monthlyCalls (User.usage base)
                       = User.monthlyCalls (User.usage u0)
                       \/ User.monthlyCalls (User.usage base) = 0)
                   /\ User.id (reqUser c1) = uid
                   /\ User.plan (reqUser c1) = User.plan u0).
  { destruct Hbase as [-> | ->]; destruct Hreq1 as [-> | ->]; simpl; auto 10. }
  destruct Hfacts as (Hbid & Hbplan & Hbtotal & Hbspent & Hbmonthly & Hid1 & Hplan1).
  exists ev, (reqUser c2), p, (User.monthlyCalls (User.usage base)).
  rewrite Hlog, Hlog1, Howner, Hid1.
  rewrite Hcat1, Hplan1 in Hplan.
  rewrite Hid1 in Hstored. rewrite Hbtotal in Htotal. rewrite Hbspent in Hspent.
  repeat match goal with |- _ /\ _ => split end; auto.
Qed.



(** ** Refusals of the handlers *)

Lemma recordAndWork_outcomes (e : Env) (ep : string) (cost : Q)
  (worker : M (option WorkResult)) (c : Ctx) :
  worker = settled (summarise e) \/ worker = summariseBatch e ->
  wp (recordAndWork e ep cost worker)
     (fun r _ => forall o, r = Val o -> o = Json 200 "success" \/ o = Unanswered) c.
Proof.
  intros [-> | ->]; repeat wp_step; norm_goal; intros o [= <-]; auto.
Qed.

Lemma onError_outcomes (e : Env) (err : ApiCall.JsError) (c : Ctx) :
  wp (onError e err)
     (fun r _ => forall o, r = Val o -> o = NextError err) c.
Proof. repeat wp_step; norm_goal; congruence. Qed.

Lemma controller_refusal (addMonth : Z -> Z) (e : Env) (ep : Endpoint) (c : Ctx) :
  wp (controller addMonth e ep)
     (fun r c' =>
        forall status tag,
          r = Val (Json status tag) -> status <> 200 ->
          apicalls (db c') = apicalls (db c)
          /\ apiCall c' = apiCall c
          /\ User.totalCalls (User.usage (reqUser c'))
             = User.totalCalls (User.usage (reqUser c))
          /\ User.totalSpent (reqUser c') = User.totalSpent (reqUser c)
          /\ User.monthlyCalls (User.usage (reqUser c'))
             <= Z.max 0 (User.monthlyCalls (User.usage (reqUser c))))
     c.
Proof.
  destruct ep;
    repeat lazymatch goal with
    | |- wp (recordAndWork _ _ _ _) _ _ =>
        eapply wp_mono; [apply recordAndWork_outcomes; worker_cases|];
        intros [?|?] ? Hrw; lazy beta iota;
        [ intros status tag Heq Hne;
          destruct (Hrw _ eq_refl); congruence
        | ]
    | |- wp (onError _ _) _ _ =>
        eapply wp_mono; [apply onError_outcomes|];
        intros ? ? Hoe status tag Heq Hne;
        specialize (Hoe _ Heq); discriminate Hoe
    | |- wp _ _ _ => wp_step
    | |- _ =>
        norm_goal; intros status tag Heq Hne;
        repeat match goal with |- _ /\ _ => split end; try reflexivity; lia
    end.
Qed.

(** X11: whenever a handler answers with a JSON refusal (any status other than
    200), it has written no event and has not charged the user: the event
    collection, [totalCalls] and [totalSpent] are as before, and the monthly
    counter is not raised. *)
Theorem handler_refusal_charges_nothing
  (addMonth : Z -> Z) (e : Env) (ep : Endpoint) (c : Ctx) (status : Z) (tag : string)
  (Hrefused : fst (run (controller addMonth e ep) c) = Json status tag)
  (Hstatus : status <> 200) :
  let c' := snd (run (controller addMonth e ep) c) in
  apicalls (db c') = apicalls (db c)
  /\ apiCall c' = apiCall c
  /\ User.totalCalls (User.usage (reqUser c'))
     = User.totalCalls (User.usage (reqUser c))
  /\ User.totalSpent (reqUser c') = User.totalSpent (reqUser c)
  /\ User.monthlyCalls (User.usage (reqUser c'))
     <= Z.max 0 (User.monthlyCalls (User.usage (reqUser c))).
Proof.
  intros c'. subst c'. pose proof (controller_refusal addMonth e ep c) as H.
  unfold wp in H. rewrite run_eq in Hrefused |- *. simpl in *.
  destruct (fst (controller addMonth e ep c)) as [o|err]; simpl in Hrefused;
    [|discriminate]. subst o. apply (H status tag eq_refl Hstatus).
Qed.

Lemma handler_refusal_charges_nothing_witness :
  let e := Fixture.request Fixture.noon Fixture.noFaults ["a"; "b"; "c"; "d"; "e"; "f"] in
  let u := Fixture.user "user" "basic" 12 in
  let c := startCtx e (Fixture.store u [Fixture.closedEvent] Fixture.catalog) u in
  fst (run (controller Fixture.month30 e Batch) c)
  = Json 400 "Batch size exceeds limit"
  /\ apicalls (db (snd (run (controller Fixture.month30 e Batch) c)))
     = [Fixture.closedEvent].
Proof.
  intros e u c.
  assert (H : fst (run (controller Fixture.month30 e Batch) c)
              = Json 400 "Batch size exceeds limit") by (vm_compute; reflexivity).
  split; [exact H|].
  assert (Hne : 400 <> 200) by discriminate.
  exact (proj1 (handler_refusal_charges_nothing Fixture.month30 e Batch c 400 _ H Hne)).
Defined.

(** X12: the batch handler tests its preconditions in a fixed order once the plan
    lookup has answered: no active plan or no [batchProcessing] feature gives
    403 whatever the batch size; otherwise more items than [batchSize] gives
    400 whatever the remaining quota; otherwise, with no reset due, fewer
    remaining calls than items gives 429.  In each case nothing but the
    lookup has happened. *)
Theorem batch_preconditions_in_order
  (addMonth : Z -> Z) (e : Env) (c : Ctx)
  (Hvalid : validBody e = true)
  (Hlookup : faults e CtGetPlan = false) :
  let n := Z.of_nat (length (items e)) in
  let plan := Pricing.getPlan (pricings (db c)) (User.plan (reqUser c)) in
  let result := run (getBatchSummaries addMonth e) c in
  (plan = None ->
   result = (Json 403 "Batch processing not available in your current plan",
             logSite CtGetPlan c))
  /\ (forall p, plan = Some p ->
        Pricing.hasFeature p "batchProcessing" = false ->
        result = (Json 403 "Batch processing not available in your current plan",
                  logSite CtGetPlan c))
  /\ (forall p, plan = Some p ->
        Pricing.hasFeature p "batchProcessing" = true ->
        Pricing.batchSize (Pricing.limits p) < n ->
        result = (Json 400 "Batch size exceeds limit", logSite CtGetPlan c))
  /\ (forall p, plan = Some p ->
        Pricing.hasFeature p "batchProcessing" = true ->
        n <= Pricing.batchSize (Pricing.limits p) ->
        User.shouldResetMonthlyUsage addMonth (clock c) (reqUser c) = false ->
        Pricing.monthlyCalls (Pricing.limits p)
        - User.monthlyCalls (User.usage (reqUser c)) < n ->
        result = (Json 429 "Insufficient API calls remaining for batch processing",
                  logSite CtGetPlan c)).
Proof.
  intros n plan result. subst n plan result.
  unfold run, getBatchSummaries. unfold_eff. simpl.
  rewrite Hvalid, Hlookup. simpl.
  split; [intros ->; reflexivity|].
  split; [intros p -> Hf; simpl; rewrite Hf; reflexivity|].
  split.
  - intros p -> Hf Hsize. simpl. rewrite Hf. simpl.
    destruct (Z.ltb_spec (Pricing.batchSize (Pricing.limits p))
                (Z.of_nat (length (items e)))); [reflexivity | lia].
  - intros p -> Hf Hsize Hreset Hquota. simpl. rewrite Hf. simpl.
    destruct (Z.ltb_spec (Pricing.batchSize (Pricing.limits p))
                (Z.of_nat (length (items e)))); [lia|].
    simpl. rewrite Hreset. simpl.
    destruct (Z.ltb_spec (Pricing.monthlyCalls (Pricing.limits p)
                          - User.monthlyCalls (User.usage (reqUser c)))
                (Z.of_nat (length (items e)))); [reflexivity | lia].
Qed.

Lemma batch_preconditions_in_order_witness :
  let e := Fixture.request Fixture.noon Fixture.noFaults ["a"; "b"] in
  let u := Fixture.user "user" "free" 10 in
  let c := startCtx e (Fixture.store u [] [Fixture.testFreePlan]) u in
  fst (run (getBatchSummaries Fixture.month30 e) c)
  = Json 403 "Batch processing not available in your current plan".
Proof.
  intros e u c.
  destruct (batch_preconditions_in_order Fixture.month30 e c eq_refl eq_refl)
    as (_ & Hfeature & _).
  rewrite (Hfeature Fixture.testFreePlan eq_refl eq_refl). reflexivity.
Defined.

(** ** The batch summariser and the batch handler *)

(** X22: with a batch size of at least 1 (5 when [options.batchSize] is
    absent) the loop of [generateBatchSummaries] ends, within one iteration
    per item, and returns one entry per item, in the order of the items: an
    error entry for every item whose summarisation threw, a summary for
    every other; no failure of an item makes the call throw.  With a batch
    size of 0 or less and at least one item the loop never ends, however
    many iterations it is given. *)
Theorem batch_service_settles_or_never
  (fails : nat -> bool) (items : list string) (optionsBatchSize : option Z) :
  let batchSize := default 5 optionsBatchSize in
  (1 <= batchSize ->
   forall fuel, (length items < fuel)%nat ->
     exists waits,
       Summarizer.loop fails items batchSize fuel 0 [] 0
       = Some (imap (fun k _ => Summarizer.summariseItem fails k) items, waits))
  /\ (batchSize <= 0 -> items <> [] ->
      forall fuel, Summarizer.loop fails items batchSize fuel 0 [] 0 = None).
Proof.
  intros batchSize. split.
  - intros Hb fuel Hfuel.
    destruct (loop_settles fails items batchSize Hb fuel 0 [] 0) as [w Hw];
      [lia | lia |].
    exists w. rewrite Hw. reflexivity.
  - intros Hb Hitems fuel.
    apply (loop_never_settles fails items batchSize Hb Hitems). lia.
Qed.

Lemma batch_service_settles_or_never_witness :
  fst <$> Summarizer.generateBatchSummaries (fun k => bool_decide (k = 1%nat))
            ["Rocq"; "OCaml"; "Lean"] (Some 2)
  = Some [Summarizer.Summarised; Summarizer.ItemError; Summarizer.Summarised]
  /\ Summarizer.generateBatchSummaries (fun _ => false) ["Rocq"] (Some 0) = None.
Proof.
  pose proof (batch_service_settles_or_never (fun k => bool_decide (k = 1%nat))
                ["Rocq"; "OCaml"; "Lean"] (Some 2)) as [Hsettles _].
  pose proof (batch_service_settles_or_never (fun _ => false) ["Rocq"] (Some 0))
    as [_ Hnever].
  assert (H2 : 1 <= default 5 (Some 2)) by (simpl; lia).
  assert (H4 : (length ["Rocq"; "OCaml"; "Lean"] < 4)%nat) by (simpl; lia).
  assert (H0 : default 5 (Some 0) <= 0) by (simpl; lia).
  assert (H1 : ["Rocq"] <> []) by discriminate.
  split.
  - destruct (Hsettles H2 4%nat H4) as [w Hw].
    etransitivity; [exact (f_equal (fmap fst) Hw) | reflexivity].
  - exact (Hnever H0 H1 2%nat).
Defined.

(** X23: a batch request that passes the checks of the handler but carries
    an [options.batchSize] of 0 or less is never answered.  The handler has
    saved its event and waits for ever: the event stays in the store without
    completion time and with the status 'success' it was created with, and
    the user is not charged. *)
Theorem batch_that_never_settles_is_not_answered
  (addMonth : Z -> Z) (e : Env) (c : Ctx) (p : Pricing.t) (b : Z)
  (Hslot : apiCallSlot c = None)
  (Hvalid : validBody e = true)
  (Hlookup : faults e CtGetPlan = false)
  (Hreset : faults e CtSaveReset = false)
  (Hinsert : faults e CtSaveCall = false)
  (Hplan : Pricing.getPlan (pricings (db c)) (User.plan (reqUser c)) = Some p)
  (Hfeature : Pricing.hasFeature p "batchProcessing" = true)
  (Hsize : Z.of_nat (length (items e)) <= Pricing.batchSize (Pricing.limits p))
  (Hquota :
     (if User.shouldResetMonthlyUsage addMonth (clock c) (reqUser c)
      then 0 else User.monthlyCalls (User.usage (reqUser c)))
     + Z.of_nat (length (items e)) <= Pricing.monthlyCalls (Pricing.limits p))
  (Hchunk : optionsBatchSize e = Some b)
  (Hzero : b <= 0)
  (Hitems : items e <> []) :
  let o := fst (run (getBatchSummaries addMonth e) c) in
  let c' := snd (run (getBatchSummaries addMonth e) c) in
  o = Unanswered
  /\ User.totalCalls (User.usage (reqUser c'))
     = User.totalCalls (User.usage (reqUser c))
  /\ User.totalSpent (reqUser c') = User.totalSpent (reqUser c)
  /\ (users (db c') = users (db c)
      \/ users (db c')
         = <[User.id (reqUser c) := User.clearMonthly (clock c) (reqUser c)]>
             (users (db c)))
  /\ exists ev,
       apicalls (db c') = (apicalls (db c) ++ [ev])%list
       /\ ApiCall.user ev = User.id (reqUser c)
       /\ ApiCall.state ev = ApiCall.pending
       /\ ApiCall.responseStatus ev = ApiCall.success.
Proof.
  intros o c'. subst o c'.
  set (r := run (getBatchSummaries addMonth e) c).
  pattern (fst r), (snd r). subst r. apply wp_run.
  assert (Hv : negb (validBody e) = false) by (rewrite Hvalid; reflexivity).
  assert (Hf : negb (Pricing.hasFeature p "batchProcessing") = false)
    by (rewrite Hfeature; reflexivity).
  assert (Hs : (Pricing.batchSize (Pricing.limits p) <? Z.of_nat (length (items e)))
               = false) by (apply Z.ltb_ge; exact Hsize).
  assert (Hgen : Summarizer.generateBatchSummaries (itemFails e) (items e)
                   (optionsBatchSize e) = None).
  { unfold Summarizer.generateBatchSummaries. rewrite Hchunk. cbn [default].
    apply (loop_never_settles (itemFails e) (items e) b Hzero Hitems). lia. }
  destruct c as [d u a s t tr h]. simpl in Hslot, Hplan, Hquota. subst s.
  repeat wp_step; norm_goal.
  all: try (exfalso;
            repeat match goal with
            | H : (_ <? _) = true |- _ => apply Z.ltb_lt in H
            end; norm_ctx; simpl in *; lia).
  all: split; [reflexivity|]; split; [reflexivity|]; split; [reflexivity|];
    split; [auto|];
    unfold ApiCall.preSave, writtenEvents, writtenSlot; simpl;
    eexists; split; [reflexivity|]; repeat split.
Qed.

Lemma batch_that_never_settles_is_not_answered_witness :
  let plain := Fixture.request Fixture.noon Fixture.noFaults ["Rocq"; "OCaml"] in
  let e := mkEnv (now plain) (tzOffset plain) (faults plain) true (title plain)
             (content plain) (items plain) (Some 0) (itemFails plain)
             (elapsed plain) (work plain) in
  let u := Fixture.user "user" "basic" 41 in
  let c := startCtx e (Fixture.store u [] Fixture.catalog) u in
  fst (run (getBatchSummaries Fixture.month30 e) c) = Unanswered
  /\ User.totalCalls
       (User.usage (reqUser (snd (run (getBatchSummaries Fixture.month30 e) c))))
     = 41.
Proof.
  intros plain e u c.
  assert (Hsize : Z.of_nat (length (items e))
                  <= Pricing.batchSize (Pricing.limits Fixture.seedBasicPlan))
    by (vm_compute; discriminate).
  assert (Hquota :
            (if User.shouldResetMonthlyUsage Fixture.month30 (clock c) (reqUser c)
             then 0 else User.monthlyCalls (User.usage (reqUser c)))
            + Z.of_nat (length (items e))
            <= Pricing.monthlyCalls (Pricing.limits Fixture.seedBasicPlan))
    by (vm_compute; discriminate).
  assert (Hzero : 0 <= 0) by lia.
  assert (Hitems : items e <> []) by discriminate.
  destruct (batch_that_never_settles_is_not_answered Fixture.month30 e c
              Fixture.seedBasicPlan 0 eq_refl eq_refl eq_refl eq_refl eq_refl
              eq_refl eq_refl Hsize Hquota eq_refl Hzero Hitems)
    as (Ho & Htotal & _).
  split; [exact Ho | exact Htotal].
Defined.

(** ** Account lock and login *)

(** X13: while an account is locked, a login request never succeeds and never
    changes the stored account, whether the password is right or wrong and
    whichever awaits fail. *)
Theorem locked_account_cannot_log_in
  (addMonth : Z -> Z) (e : Account.Env) (user : Account.t)
  (Hlocked : Account.isLocked (Account.now e) user = true) :
  fst (Account.login addMonth e (Some user)) <> Account.LoggedIn
  /\ snd (Account.login addMonth e (Some user)) = Some user.
Proof.
  unfold Account.login. rewrite Hlocked.
  destruct (Account.validBody e); simpl; [|split; [discriminate | reflexivity]].
  destruct (Account.faults e Account.LFind); split; (discriminate || reflexivity).
Qed.

Lemma locked_account_cannot_log_in_witness :
  let user := Account.mk (Fixture.user "user" "free" 0) Account.active 5
                (Some (Fixture.noon + 1000)) None 0 None in
  snd (Account.login Fixture.month30 (Account.rightPasswordAt Fixture.noon)
         (Some user))
  = Some user.
Proof.
  intros user.
  exact (proj2 (locked_account_cannot_log_in Fixture.month30
                  (Account.rightPasswordAt Fixture.noon) user eq_refl)).
Defined.

(** A suspended account is refused before the password is compared: no
    login request logs it in or changes it. *)
Lemma suspended_login_changes_nothing
  (addMonth : Z -> Z) (e : Account.Env) (user : Account.t) :
  Account.status user = Account.suspended ->
  fst (Account.login addMonth e (Some user)) <> Account.LoggedIn
  /\ snd (Account.login addMonth e (Some user)) = Some user.
Proof.
  intros Hst. unfold Account.login. rewrite Hst.
  destruct (Account.validBody e); simpl; [|split; [discriminate | reflexivity]].
  destruct (Account.faults e Account.LFind); simpl;
    [split; [discriminate | reflexivity]|].
  destruct (Account.isLocked (Account.now e) user);
    split; (discriminate || reflexivity).
Qed.

Lemma suspended_logins_change_nothing
  (addMonth : Z -> Z) (es : list Account.Env) (user : Account.t) :
  Account.status user = Account.suspended ->
  Account.logins addMonth es (Some user) = Some user.
Proof.
  intros Hst. unfold Account.logins.
  induction es as [|e es IH]; simpl; [reflexivity|].
  rewrite (proj2 (suspended_login_changes_nothing addMonth e user Hst)).
  exact IH.
Qed.

(** One failed login on an account that is not suspended and has no lock
    adds one to the count. *)
Lemma wrong_password_counts (addMonth : Z -> Z) (t : Z) (user : Account.t) :
  Account.lockUntil user = None ->
  Account.status user <> Account.suspended ->
  Account.login addMonth (Account.wrongPasswordAt t) (Some user)
  = (Account.Refused "Invalid email or password",
     Some (Account.mk (Account.doc user) (Account.status user)
             (Account.loginAttempts user + 1)
             (if 5 <=? Account.loginAttempts user + 1
              then Some (t + Account.lockMs) else None)
             (Account.lastLogin user) (Account.lastActiveAt user)
             (Account.apiKey user))).
Proof.
  intros Hlock Hst. unfold Account.login, Account.wrongPasswordAt,
    Account.incLoginAttempts, Account.isLocked, Account.applyUpdate. simpl.
  rewrite Hlock. simpl.
  destruct (Account.status user); try contradiction; simpl;
    destruct (5 <=? Account.loginAttempts user + 1); simpl;
    rewrite ?Hlock; reflexivity.
Qed.

Lemma failures_below_five (addMonth : Z -> Z) (ts : list Z) :
  forall user,
    Account.lockUntil user = None ->
    Account.status user <> Account.suspended ->
    Account.loginAttempts user + Z.of_nat (length ts) < 5 ->
    Account.logins addMonth (map Account.wrongPasswordAt ts) (Some user)
    = Some (Account.mk (Account.doc user) (Account.status user)
              (Account.loginAttempts user + Z.of_nat (length ts))
              None (Account.lastLogin user) (Account.lastActiveAt user)
              (Account.apiKey user)).
Proof.
  unfold Account.logins.
  induction ts as [|t ts IH]; intros user Hlock Hst Hlt.
  - simpl. rewrite Z.add_0_r. destruct user. simpl in *. subst. reflexivity.
  - cbn [map fold_left]. rewrite wrong_password_counts by assumption.
    cbn [snd].
    cbn [length] in Hlt. rewrite Nat2Z.inj_succ in Hlt.
    destruct (Z.leb_spec 5 (Account.loginAttempts user + 1)); [lia|].
    rewrite IH.
    + cbn [Account.doc Account.status Account.loginAttempts Account.lastLogin
           Account.lastActiveAt Account.apiKey length].
      rewrite Nat2Z.inj_succ. do 2 f_equal. lia.
    + reflexivity.
    + exact Hst.
    + cbn [Account.loginAttempts]. lia.
Qed.

(** X14: take an account with no failed attempts and no lock.  Unless it is
    suspended, four wrong passwords in a row leave it unlocked with a count
    of 4; the fifth makes the count 5 and locks it for two hours from that
    instant, and during those two hours even the right password is refused.
    A suspended account is refused before the password is looked at, so the
    five attempts leave it exactly as it was. *)
Theorem five_wrong_passwords_lock_for_two_hours
  (addMonth : Z -> Z) (user : Account.t) (ts : list Z) (t5 t : Z)
  (Hfresh : Account.loginAttempts user = 0)
  (Hlock : Account.lockUntil user = None)
  (Hfour : length ts = 4%nat)
  (Hwithin : t < t5 + Account.lockMs) :
  (Account.status user <> Account.suspended ->
   (exists after4,
      Account.logins addMonth (map Account.wrongPasswordAt ts) (Some user)
      = Some after4
      /\ Account.loginAttempts after4 = 4
      /\ Account.lockUntil after4 = None)
   /\ (exists after5,
         Account.logins addMonth (map Account.wrongPasswordAt (ts ++ [t5]))
           (Some user) = Some after5
         /\ Account.loginAttempts after5 = 5
         /\ Account.lockUntil after5 = Some (t5 + Account.lockMs)
         /\ Account.login addMonth (Account.rightPasswordAt t) (Some after5)
            = (Account.Refused
                 "Account is temporarily locked. Please try again later.",
               Some after5)))
  /\ (Account.status user = Account.suspended ->
      Account.logins addMonth (map Account.wrongPasswordAt (ts ++ [t5]))
        (Some user) = Some user).
Proof.
  split; [|apply suspended_logins_change_nothing].
  intros Hst.
  assert (H4 : Account.logins addMonth (map Account.wrongPasswordAt ts) (Some user)
               = Some (Account.mk (Account.doc user) (Account.status user) 4 None
                         (Account.lastLogin user) (Account.lastActiveAt user)
                         (Account.apiKey user))).
  { rewrite failures_below_five by (rewrite ?Hfresh, ?Hfour; simpl; auto; lia).
    rewrite Hfresh, Hfour. reflexivity. }
  split.
  - eexists. split; [exact H4|]. split; reflexivity.
  - unfold Account.logins in *. rewrite map_app, fold_left_app, H4.
    cbn [map fold_left]. rewrite wrong_password_counts by (simpl; auto).
    cbn [snd Account.loginAttempts Account.doc Account.status Account.lastLogin
         Account.lastActiveAt Account.apiKey].
    eexists. split; [reflexivity|]. split; [reflexivity|]. split; [reflexivity|].
    unfold Account.login, Account.rightPasswordAt, Account.isLocked. simpl.
    destruct (Z.ltb_spec t (t5 + Account.lockMs)); [reflexivity | lia].
Qed.

Lemma five_wrong_passwords_lock_for_two_hours_witness :
  let user := Account.mk (Fixture.user "user" "free" 0) Account.active 0 None None
                0 None in
  let ts := [Fixture.noon; Fixture.noon + 5; Fixture.noon + 9; Fixture.noon + 20] in
  exists after5,
    Account.logins Fixture.month30
      (map Account.wrongPasswordAt (ts ++ [Fixture.noon + 60])) (Some user)
    = Some after5
    /\ Account.lockUntil after5 = Some (Fixture.noon + 60 + Account.lockMs).
Proof.
  intros user ts.
  assert (Hst : Account.status user <> Account.suspended) by discriminate.
  assert (Hwithin : Fixture.noon + 100 < Fixture.noon + 60 + Account.lockMs)
    by (vm_compute; reflexivity).
  destruct (proj1 (five_wrong_passwords_lock_for_two_hours Fixture.month30 user ts
              (Fixture.noon + 60) (Fixture.noon + 100) eq_refl eq_refl eq_refl
              Hwithin) Hst) as (_ & after5 & H5 & _ & Hl & _).
  exists after5. split; assumption.
Defined.

(** X15: once a lock has expired, the next wrong password does not add to
    the old count: whatever the count was, it restarts at 1 and the lock is
    removed.  Only a suspended account is treated otherwise: it is refused
    as suspended, before the password is looked at, and keeps its count and
    its lock. *)
Theorem expired_lock_restarts_the_count
  (addMonth : Z -> Z) (t l : Z) (user : Account.t)
  (Hlock : Account.lockUntil user = Some l)
  (Hexpired : l < t) :
  Account.login addMonth (Account.wrongPasswordAt t) (Some user)
  = match Account.status user with
    | Account.suspended =>
        (Account.Refused "Account has been suspended. Please contact support.",
         Some user)
    | _ =>
        (Account.Refused "Invalid email or password",
         Some (Account.mk (Account.doc user) (Account.status user) 1 None
                 (Account.lastLogin user) (Account.lastActiveAt user)
                 (Account.apiKey user)))
    end.
Proof.
  destruct user as [doc st n lock last active key]. simpl in Hlock. subst lock.
  unfold Account.login, Account.wrongPasswordAt, Account.incLoginAttempts,
    Account.isLocked. simpl.
  destruct (Z.ltb_spec t l); [lia|].
  destruct (Z.ltb_spec l t); [|lia].
  destruct st; reflexivity.
Qed.

Lemma expired_lock_restarts_the_count_witness :
  let user := Account.mk (Fixture.user "user" "free" 0) Account.active 5
                (Some (Fixture.noon - 1)) None 0 None in
  snd (Account.login Fixture.month30 (Account.wrongPasswordAt Fixture.noon)
         (Some user))
  = Some (Account.mk (Fixture.user "user" "free" 0) Account.active 1 None None
            0 None).
Proof.
  intros user.
  assert (Hexpired : Fixture.noon - 1 < Fixture.noon) by lia.
  rewrite (expired_lock_restarts_the_count Fixture.month30 Fixture.noon
             (Fixture.noon - 1) user eq_refl Hexpired).
  reflexivity.
Defined.

(** X16: with the right password and a working store, an account that is
    neither locked nor suspended is logged in, whatever else its status is;
    afterwards its failed-attempt count is 0, it is not locked, its last
    login is the instant of the request and its status is unchanged. *)
Theorem right_password_logs_in_and_clears
  (addMonth : Z -> Z) (e : Account.Env) (user : Account.t)
  (Hvalid : Account.validBody e = true)
  (Hpassword : Account.passwordOk e = true)
  (Hstore : forall s, Account.faults e s = false)
  (Hunlocked : Account.isLocked (Account.now e) user = false)
  (Hst : Account.status user <> Account.suspended)
  (Hcount : 0 <= Account.loginAttempts user) :
  exists after,
    Account.login addMonth e (Some user) = (Account.LoggedIn, Some after)
    /\ Account.loginAttempts after = 0
    /\ Account.isLocked (Account.now e) after = false
    /\ Account.lastLogin after = Some (Account.now e)
    /\ Account.status after = Account.status user
    /\ User.id (Account.doc after) = User.id (Account.doc user)
    /\ User.totalCalls (User.usage (Account.doc after))
       = User.totalCalls (User.usage (Account.doc user)).
Proof.
  unfold Account.login. rewrite Hvalid, Hpassword, Hunlocked, !Hstore. simpl.
  rewrite andb_false_r.
  assert (Hs : match Account.status user with
               | Account.suspended => true | _ => false end = false)
    by (destruct (Account.status user); try reflexivity; contradiction).
  rewrite Hs.
  destruct (Z.ltb_spec 0 (Account.loginAttempts user)) as [Hpos|Hzero];
    destruct (User.shouldResetMonthlyUsage addMonth (Account.now e)
                (Account.doc user));
    eexists; (split; [reflexivity|]); simpl;
    repeat split; try reflexivity; try lia; try exact Hunlocked.
Qed.

Lemma right_password_logs_in_and_clears_witness :
  let user := Account.mk (Fixture.user "user" "free" 3) Account.deleted 2
                (Some (Fixture.noon - 1)) None 0 None in
  fst (Account.login Fixture.month30 (Account.rightPasswordAt Fixture.noon)
         (Some user))
  = Account.LoggedIn.
Proof.
  intros user.
  assert (Hst : Account.status user <> Account.suspended) by discriminate.
  assert (Hcount : 0 <= Account.loginAttempts user) by (simpl; lia).
  destruct (right_password_logs_in_and_clears Fixture.month30
              (Account.rightPasswordAt Fixture.noon) user eq_refl eq_refl
              (fun _ => eq_refl) eq_refl Hst Hcount) as (after & -> & _).
  reflexivity.
Defined.

(** ** The authentication middleware *)

(** A user found by API key is active: [findByApiKey] only looks among the
    active accounts. *)
Lemma resolve_apikey_is_active (e : Auth.Env) (req : Auth.Req)
  (store : list Account.t) (found : Account.t) :
  Auth.resolve e req store = inr (found, Auth.apikey) ->
  Account.status found = Account.active.
Proof.
  assert (Hkey : forall key, Auth.findByApiKey store key = Some found ->
                   Account.status found = Account.active).
  { intros key H. apply find_some in H as [_ H].
    apply andb_true_iff in H as [_ H].
    destruct (Account.status found); (reflexivity || discriminate). }
  unfold Auth.resolve.
  destruct (negb (Auth.truthy (Auth.bearerToken req))
            && negb (Auth.truthy (Auth.requestApiKey req))); [discriminate|].
  destruct (Auth.bearerToken req) as [token|];
    destruct (Auth.requestApiKey req) as [key|];
    repeat match goal with
    | |- context [if ?b then _ else _] => destruct b
    | |- context [match Auth.verify ?e ?t with _ => _ end] =>
        destruct (Auth.verify e t)
    | |- context [match Auth.findById ?s ?i with _ => _ end] =>
        destruct (Auth.findById s i)
    | |- context [match Auth.findByApiKey ?s ?k with _ => _ end] =>
        destruct (Auth.findByApiKey s k) eqn:?
    end;
    intros [=]; subst; eauto.
Qed.

(** X17: the authentication middleware calls [next()] for a user it has
    found exactly when the account is active, it is not locked and, on the
    JWT path, the save of the last activity does not reject; a user found
    by API key is always active; a request it turns away leaves the store
    as it was.  On [next()] the user it hands on
    is the one found (with the new [lastActiveAt], which is also stored, on
    the JWT path).  A locked active account is told to wait at least one
    minute, and at most 120 minutes when the lock ends no later than two
    hours from now. *)
Theorem auth_admits_active_unlocked_accounts
  (e : Auth.Env) (req : Auth.Req) (store : list Account.t) :
  (forall found method,
     Auth.resolve e req store = inr (found, method) ->
     ((exists user, fst (Auth.auth e req store) = Auth.Next user method)
      <-> (Account.status found = Account.active
           /\ Account.isLocked (Auth.now e) found = false
           /\ (method = Auth.jwt -> Auth.faults e Auth.Save = false)))
     /\ (forall l,
           Account.status found = Account.active ->
           Account.lockUntil found = Some l ->
           Auth.now e < l ->
           exists m,
             Auth.auth e req store = (Auth.Failed (Auth.Locked m), store)
             /\ 1 <= m
             /\ (l <= Auth.now e + Account.lockMs -> m <= 120))
     /\ (method = Auth.apikey -> Account.status found = Account.active))
  /\ (forall user method,
        fst (Auth.auth e req store) = Auth.Next user method ->
        exists found,
          Auth.resolve e req store = inr (found, method)
          /\ Account.status user = Account.active
          /\ Account.isLocked (Auth.now e) user = false
          /\ Account.doc user = Account.doc found
          /\ match method with
             | Auth.jwt =>
                 Account.lastActiveAt user = Auth.now e
                 /\ snd (Auth.auth e req store)
                    = Auth.saveActivity (Auth.now e) found store
             | Auth.apikey =>
                 user = found /\ snd (Auth.auth e req store) = store
             end)
  /\ ((forall user method, fst (Auth.auth e req store) <> Auth.Next user method) ->
      snd (Auth.auth e req store) = store).
Proof.
  unfold Auth.auth.
  destruct (Auth.resolve e req store) as [refused | [found method]] eqn:Hres.
  - split; [intros ? ? [=]|]. split; [|reflexivity].
    intros user method Hnext. simpl in Hnext. subst refused.
    exfalso. revert Hres. unfold Auth.resolve.
    repeat match goal with
    | |- context [if ?b then _ else _] => destruct b
    | |- context [match ?x with _ => _ end] => destruct x
    end; discriminate.
  - split; [|split].
    + intros found' method' [= <- <-]. unfold Auth.checks, Account.isLocked.
      split; [|split];
        [ | | intros ->; exact (resolve_apikey_is_active e req store found Hres) ].
      * destruct (Account.status found); simpl;
          [ destruct (Account.lockUntil found) as [l|];
            [destruct (Auth.now e <? l) eqn:Hlt; simpl|];
            try (destruct method; simpl;
                 [destruct (Auth.faults e Auth.Save) eqn:Hsave; simpl|])
          | | | ];
          (split;
           [ intros [? H]; try discriminate H; repeat split; auto; discriminate
           | intros (H1 & H2 & H3); try discriminate H1; try discriminate H2;
             try (specialize (H3 eq_refl); congruence); eexists; reflexivity ]).
      * intros l Hst Hl Hlt. rewrite Hst, Hl.
        destruct (Z.ltb_spec (Auth.now e) l); [|lia].
        eexists. split; [reflexivity|].
        unfold Auth.lockMinutes, Account.lockMs. split.
        -- apply Z.div_le_lower_bound; lia.
        -- intros Hle.
           assert ((l - Auth.now e + 59999) / 60000 < 121)
             by (apply Z.div_lt_upper_bound; lia).
           lia.
    + intros user method'. unfold Auth.checks, Account.isLocked.
      destruct (Account.status found) eqn:Hst; simpl; try discriminate.
      destruct (Account.lockUntil found) as [l|] eqn:Hl;
        [destruct (Auth.now e <? l) eqn:Hlt; simpl; [discriminate|]|];
        destruct method; simpl;
        try (destruct (Auth.faults e Auth.Save); simpl; [discriminate|]);
        intros [= <- <-]; exists found; simpl; rewrite ?Hl, ?Hlt;
        repeat split; auto.
    + unfold Auth.checks.
      destruct (Account.status found); simpl; try reflexivity.
      destruct (Account.lockUntil found) as [l|];
        [destruct (Auth.now e <? l); simpl; [reflexivity|]|];
        destruct method; simpl; try reflexivity;
        try (destruct (Auth.faults e Auth.Save); simpl; [reflexivity|]);
        intros Hnone; exfalso; eapply Hnone; reflexivity.
Qed.

Lemma auth_admits_active_unlocked_accounts_witness :
  let account := Account.mk (Fixture.user "user" "free" 0) Account.active 5
                   (Some (Fixture.noon + 90001)) None 0 (Some "wsg_k") in
  let req := Auth.mkReq (Some "Bearer abc") (Some "wsg_k") None in
  let e := Auth.mkEnv Fixture.noon (fun _ => Auth.Verified 7) (fun _ => false) in
  exists m,
    Auth.auth e req [account] = (Auth.Failed (Auth.Locked m), [account])
    /\ 1 <= m <= 120.
Proof.
  intros account req e.
  destruct (auth_admits_active_unlocked_accounts e req [account]) as [H _].
  destruct (H account Auth.jwt eq_refl) as (_ & Hlocked & _).
  assert (Hlt : Auth.now e < Fixture.noon + 90001) by (simpl; lia).
  destruct (Hlocked (Fixture.noon + 90001) eq_refl eq_refl Hlt)
    as (m & Hm & Hlo & Hhi).
  exists m. split; [exact Hm|]. split; [exact Hlo|].
  apply Hhi. unfold Account.lockMs. simpl. lia.
Defined.

(** ** The statistics of a user against the user's counters *)

(** What the shared tail of the handlers has done when it does not answer
    200.  When it throws, the users are untouched, the event exists in
    memory with the caller as owner, and the store holds at most that one
    new event.  When its work never settles, the users are untouched and
    the store holds the new event as it was created. *)
Lemma recordAndWork_thrown (e : Env) (ep : string) (cost : Q)
  (worker : M (option WorkResult)) (c : Ctx) :
  worker = settled (summarise e) \/ worker = summariseBatch e ->
  apiCallSlot c = None ->
  wp (recordAndWork e ep cost worker)
     (fun r c' =>
        match r with
        | Val o =>
            o = Json 200 "success"
            \/ (o = Unanswered
                /\ users (db c') = users (db c)
                /\ exists x,
                     apicalls (db c') = (apicalls (db c) ++ [x])%list
                     /\ ApiCall.user x = User.id (reqUser c))
        | Thrown _ =>
            users (db c') = users (db c)
            /\ exists a,
                 apiCall c' = Some a
                 /\ ApiCall.user a = User.id (reqUser c)
                 /\ ((apiCallSlot c' = None
                      /\ apicalls (db c') = apicalls (db c))
                     \/ (apiCallSlot c' = Some (length (apicalls (db c)))
                         /\ exists x,
                              apicalls (db c') = (apicalls (db c) ++ [x])%list
                              /\ ApiCall.user x = User.id (reqUser c)))
        end)
     c.
Proof.
  intros Hworker Hslot. destruct c as [d u a s t tr h]. simpl in Hslot. subst s.
  destruct Hworker as [-> | ->]; repeat wp_step; norm_goal.
  all: try (left; reflexivity).
  all: try (right; split; [reflexivity|]; split; [reflexivity|];
            unfold ApiCall.preSave, writtenEvents, writtenSlot; simpl;
            eexists; split; reflexivity).
  all: (split; [reflexivity|]); eexists; (split; [reflexivity|]);
    unfold ApiCall.preSave; simpl; (split; [reflexivity|]);
    unfold writtenEvents, writtenSlot; simpl;
    first [ left; split; reflexivity
          | right; split; [reflexivity|]; eexists; split;
            [ first [reflexivity | apply insert_at_end] | reflexivity ] ].
Qed.

(** The [catch] block run on such a state: it never answers 200, it does
    answer, it leaves the users alone, and the store ends with no new event
    or with one, owned by the caller, and marked 'error' when its save went
    through. *)
Lemma onError_records (e : Env) (err : ApiCall.JsError) (c : Ctx)
  (old : list ApiCall.t) (uid : Z) (a : ApiCall.t) :
  apiCall c = Some a ->
  ApiCall.user a = uid ->
  ((apiCallSlot c = None /\ apicalls (db c) = old)
   \/ (apiCallSlot c = Some (length old)
       /\ exists x, apicalls (db c) = (old ++ [x])%list
                    /\ ApiCall.user x = uid)) ->
  wp (onError e err)
     (fun r c' =>
        r <> Val (Json 200 "success")
        /\ r <> Val Unanswered
        /\ users (db c') = users (db c)
        /\ (apicalls (db c') = old
            \/ exists ev,
                 apicalls (db c') = (old ++ [ev])%list
                 /\ ApiCall.user ev = uid
                 /\ (faults e CtSaveFailed = false
                     -> ApiCall.responseStatus ev = ApiCall.error)))
     c.
Proof.
  intros Ha Hu Hlog. destruct c as [d u a0 s t tr h]. simpl in Ha, Hlog.
  subst a0.
  destruct Hlog as [[Hs Hl] | (Hs & x & Hl & Hux)]; subst s;
    repeat wp_step; norm_goal;
    (split; [discriminate|]); (split; [discriminate|]); (split; [reflexivity|]);
    unfold ApiCall.preSave, writtenEvents, writtenSlot; simpl; rewrite ?Hl;
    first [ left; reflexivity
          | right; eexists; split;
            [ first [reflexivity | apply insert_at_end]
            | simpl; repeat split; auto; congruence ] ].
Qed.

(** A handler that does not answer 200 has changed the stored users at most
    by the monthly reset of the caller, and has left no new event or one
    event of the caller, marked 'error' when the handler answered and the
    save of the failure went through. *)
Lemma controller_failure (addMonth : Z -> Z) (e : Env) (ep : Endpoint) (c : Ctx) :
  apiCallSlot c = None ->
  apiCall c = None ->
  wp (controller addMonth e ep)
     (fun r c' =>
        r <> Val (Json 200 "success") ->
        (users (db c') = users (db c)
         \/ users (db c')
            = <[User.id (reqUser c) := User.clearMonthly (clock c) (reqUser c)]>
                (users (db c)))
        /\ (apicalls (db c') = apicalls (db c)
            \/ exists ev,
                 apicalls (db c') = (apicalls (db c) ++ [ev])%list
                 /\ ApiCall.user ev = User.id (reqUser c)
                 /\ (faults e CtSaveFailed = false
                     -> r <> Val Unanswered
                     -> ApiCall.responseStatus ev = ApiCall.error)))
     c.
Proof.
  intros Hslot Hcall.
  destruct ep;
    repeat lazymatch goal with
    | |- wp (recordAndWork _ _ _ _) _ ?X =>
        eapply wp_mono;
          [apply recordAndWork_thrown; [worker_cases | norm_goal; exact Hslot]|];
        intros [o|err] c1 Hrw; lazy beta iota;
        [ intros Hne;
          destruct Hrw as [-> | (-> & Husers & x & Hx & Hux)];
          [ contradiction
          | rewrite Husers; norm_goal; split; [auto|];
            right; exists x; split; [exact Hx|]; split; [exact Hux|];
            intros _ Hun; contradiction ]
        | destruct Hrw as (Husers & a & Ha & Hua & Hlog);
          eapply wp_mono;
          [ apply (onError_records e err c1 (apicalls (db X)) _ a Ha Hua Hlog) |];
          intros r c2 (_ & Hans & Husers2 & Hev) _;
          rewrite Husers2, Husers; norm_goal;
          split; [auto|];
          destruct Hev as [Hev | (ev & Hev & Huev & Hst)];
          [ left; exact Hev
          | right; exists ev;
            split; [exact Hev|]; split; [exact Huev|]; intros Hs _; exact (Hst Hs) ] ]
    | |- wp _ _ _ => wp_step
    | |- _ => norm_goal; intros _; split; auto
    end.
Qed.

(** The shared tail of the handlers always answers when its work settles. *)
Lemma recordAndWork_answers (e : Env) (ep : string) (cost : Q)
  (worker : M (option WorkResult)) (c : Ctx) :
  worker = settled (summarise e)
  \/ (worker = summariseBatch e
      /\ exists results waits,
           Summarizer.generateBatchSummaries (itemFails e) (items e)
             (optionsBatchSize e) = Some (results, waits)) ->
  wp (recordAndWork e ep cost worker) (fun r _ => r <> Val Unanswered) c.
Proof.
  intros [-> | [-> (results & waits & Hgen)]];
    repeat wp_step; norm_goal; discriminate.
Qed.

(** A handler whose batch loop ends always answers. *)
Lemma controller_answers (addMonth : Z -> Z) (e : Env) (ep : Endpoint) (c : Ctx) :
  (ep = Batch -> forall b, optionsBatchSize e = Some b -> 1 <= b) ->
  wp (controller addMonth e ep) (fun r _ => r <> Val Unanswered) c.
Proof.
  intros Hchunk.
  assert (Hgen : ep = Batch ->
            exists results waits,
              Summarizer.generateBatchSummaries (itemFails e) (items e)
                (optionsBatchSize e) = Some (results, waits)).
  { intros Hep.
    destruct (generateBatchSummaries_settles (itemFails e) (items e)
                (optionsBatchSize e) (Hchunk Hep)) as [waits H].
    eauto. }
  destruct ep;
    repeat lazymatch goal with
    | |- wp (recordAndWork _ _ _ _) _ _ =>
        eapply wp_mono;
          [ apply recordAndWork_answers;
            first [left; reflexivity | right; split; [reflexivity | auto]] |];
        intros [o|err] c1 Hrw; lazy beta iota;
        [ exact Hrw
        | eapply wp_mono; [apply onError_outcomes|];
          intros r c2 Hoe Heq; specialize (Hoe _ Heq); discriminate Hoe ]
    | |- wp _ _ _ => wp_step
    | |- _ => norm_goal; discriminate
    end.
Qed.

(** The monthly reset leaves the lifetime counter and the amount spent. *)
Lemma stored_after_resets (users0 users1 users2 : gmap Z User.t) (u0 r1 : User.t)
  (t1 t2 : Z) :
  users0 !! User.id u0 = Some u0 ->
  (r1 = u0 \/ r1 = User.clearMonthly t1 u0) ->
  (users1 = users0 \/ users1 = <[User.id u0 := User.clearMonthly t1 u0]> users0) ->
  (users2 = users1 \/ users2 = <[User.id r1 := User.clearMonthly t2 r1]> users1) ->
  exists u1,
    users2 !! User.id u0 = Some u1
    /\ User.id u1 = User.id u0
    /\ User.totalCalls (User.usage u1) = User.totalCalls (User.usage u0)
    /\ User.totalSpent u1 = User.totalSpent u0.
Proof.
  intros Hu Hr1 H1 H2.
  assert (Hid : User.id r1 = User.id u0) by (destruct Hr1; subst r1; reflexivity).
  destruct H2 as [-> | ->].
  - destruct H1 as [-> | ->].
    + exists u0. auto.
    + rewrite lookup_insert_eq. eexists. split; [reflexivity|]. repeat split.
  - rewrite Hid, lookup_insert_eq. eexists. split; [reflexivity|].
    destruct Hr1; subst r1; repeat split.
Qed.

(** A request that is not answered 200 has not charged the caller, and has
    left no new event or one event of the caller, marked 'error' when the
    request was answered and the failure could be saved. *)
Lemma handle_failure (addMonth : Z -> Z) (e : Env) (ep : Endpoint) (uid : Z)
  (d : Db) (u0 : User.t) :
  users d !! uid = Some u0 ->
  User.id u0 = uid ->
  fst (handle addMonth e ep uid d) <> Json 200 "success" ->
  (exists u1,
     users (snd (handle addMonth e ep uid d)) !! uid = Some u1
     /\ User.id u1 = uid
     /\ User.totalCalls (User.usage u1) = User.totalCalls (User.usage u0)
     /\ User.totalSpent u1 = User.totalSpent u0)
  /\ (apicalls (snd (handle addMonth e ep uid d)) = apicalls d
      \/ exists ev,
           apicalls (snd (handle addMonth e ep uid d)) = (apicalls d ++ [ev])%list
           /\ ApiCall.user ev = uid
           /\ (faults e CtSaveFailed = false
               -> fst (handle addMonth e ep uid d) <> Unanswered
               -> ApiCall.responseStatus ev = ApiCall.error)).
Proof.
  intros Hu Hid. subst uid. unfold handle. rewrite Hu.
  set (c0 := startCtx e d u0).
  pose proof (rateLimit_footprint addMonth e c0) as Hfp.
  pose proof (rateLimit_outcomes addMonth e c0) as Hout.
  unfold wp in Hfp, Hout. rewrite (run_eq (rateLimit addMonth e)).
  destruct (rateLimit addMonth e c0) as [r1 c1]. simpl in Hfp, Hout.
  destruct Hfp as (Hlog1 & Hcat1 & Hcall1 & Hslot1 & Hclock1 & Huser1).
  assert (Hr1 : reqUser c1 = u0 \/ reqUser c1 = User.clearMonthly (clock c0) u0).
  { destruct Huser1 as [[H _] | (_ & H & _)]; [left | right]; exact H. }
  assert (Hs1 : users (db c1) = users d
                \/ users (db c1)
                   = <[User.id u0 := User.clearMonthly (clock c0) u0]> (users d)).
  { destruct Huser1 as [[_ H] | (_ & _ & [H | H])]; [left | left | right]; exact H. }
  assert (Hid1 : User.id (reqUser c1) = User.id u0)
    by (destruct Hr1 as [-> | ->]; reflexivity).
  destruct Hout as [-> | (code & [-> | ->])]; simpl.
  - pose proof (controller_failure addMonth e ep c1 Hslot1 Hcall1) as Hcf.
    unfold wp in Hcf. rewrite run_eq.
    destruct (controller addMonth e ep c1) as [r2 c2]. simpl in Hcf |- *.
    intros Hne.
    assert (Hr2 : r2 <> Val (Json 200 "success")).
    { intros ->. apply Hne. reflexivity. }
    destruct (Hcf Hr2) as (Hs2 & Hev). split.
    + exact (stored_after_resets (users d) (users (db c1)) (users (db c2)) u0
               (reqUser c1) (clock c0) (clock c1) Hu Hr1 Hs1 Hs2).
    + rewrite Hlog1, Hid1 in Hev.
      destruct Hev as [Hev | (ev & Hev & Huev & Hst)]; [left; exact Hev|].
      right. exists ev. split; [exact Hev|]. split; [exact Huev|].
      intros Hsave Hans. apply Hst; [exact Hsave|].
      intros ->. apply Hans. reflexivity.
  - intros _. split; [|left; exact Hlog1].
    exact (stored_after_resets (users d) (users (db c1)) (users (db c1)) u0
             (reqUser c1) (clock c0) (clock c1) Hu Hr1 Hs1 (or_introl eq_refl)).
  - intros _. split; [|left; exact Hlog1].
    exact (stored_after_resets (users d) (users (db c1)) (users (db c1)) u0
             (reqUser c1) (clock c0) (clock c1) Hu Hr1 Hs1 (or_introl eq_refl)).
Qed.

(** A request whose batch loop ends is always answered. *)
Lemma handle_answers (addMonth : Z -> Z) (e : Env) (ep : Endpoint) (uid : Z)
  (d : Db) :
  (ep = Batch -> forall b, optionsBatchSize e = Some b -> 1 <= b) ->
  fst (handle addMonth e ep uid d) <> Unanswered.
Proof.
  intros Hchunk. unfold handle.
  destruct (users d !! uid) as [u|]; [|discriminate].
  pose proof (rateLimit_outcomes addMonth e (startCtx e d u)) as Hout.
  unfold wp in Hout. rewrite (run_eq (rateLimit addMonth e)).
  destruct (rateLimit addMonth e (startCtx e d u)) as [r1 c1]. simpl in Hout.
  destruct Hout as [-> | (code & [-> | ->])]; simpl; try discriminate.
  pose proof (controller_answers addMonth e ep c1 Hchunk) as Hans.
  unfold wp in Hans. rewrite run_eq.
  destruct (controller addMonth e ep c1) as [[o|err] c2]; simpl in *;
    [congruence | discriminate].
Qed.

Lemma stats_successfulCalls (evs : list ApiCall.t) (uid : Z) (range : option (Z * Z)) :
  UsageStats.successfulCalls
    (UsageStats.statistics (UsageStats.getUsageStats evs uid range))
  = UsageStats.countSuccessful (List.filter (UsageStats.matches uid range) evs).
Proof.
  unfold UsageStats.getUsageStats.
  destruct (List.filter _ evs); reflexivity.
Qed.

Lemma countSuccessful_app (l1 l2 : list ApiCall.t) :
  UsageStats.countSuccessful (l1 ++ l2)
  = UsageStats.countSuccessful l1 + UsageStats.countSuccessful l2.
Proof.
  induction l1 as [|a l1 IH]; simpl; [reflexivity|].
  rewrite IH. destruct (ApiCall.responseStatus a); lia.
Qed.

Lemma matches_own_event (uid : Z) (ev : ApiCall.t) :
  ApiCall.user ev = uid -> UsageStats.matches uid None ev = true.
Proof.
  intros <-. unfold UsageStats.matches. rewrite Z.eqb_refl. reflexivity.
Qed.

Lemma outcome_success_dec (o : Outcome) :
  {o = Json 200 "success"} + {o <> Json 200 "success"}.
Proof.
  destruct o as [|status tag| | |]; try (right; discriminate).
  destruct (Z.eq_dec status 200) as [->|Hs]; [|right; congruence].
  destruct (String.string_dec tag "success") as [->|Ht]; [left; reflexivity|].
  right. congruence.
Qed.

(** One request against the statistics of its caller: when the request is
    answered and its failure can be saved, the number of successful events
    and the lifetime counter move together. *)
Lemma handle_accounts (addMonth : Z -> Z) (e : Env) (ep : Endpoint) (uid : Z)
  (d : Db) (u0 : User.t) :
  users d !! uid = Some u0 ->
  User.id u0 = uid ->
  faults e CtSaveFailed = false ->
  (ep = Batch -> forall b, optionsBatchSize e = Some b -> 1 <= b) ->
  let d' := snd (handle addMonth e ep uid d) in
  let successful (x : Db) :=
    UsageStats.countSuccessful (List.filter (UsageStats.matches uid None) (apicalls x)) in
  exists u1,
    users d' !! uid = Some u1
    /\ User.id u1 = uid
    /\ successful d' - successful d
       = User.totalCalls (User.usage u1) - User.totalCalls (User.usage u0).
Proof.
  intros Hu Hid Hsave Hchunk d' successful. subst d' successful.
  pose proof (handle_answers addMonth e ep uid d Hchunk) as Hans.
  destruct (outcome_success_dec (fst (handle addMonth e ep uid d))) as [Hok | Hno].
  - destruct (handle_receipt addMonth e ep uid d u0 Hu Hid Hok)
      as (ev & u1 & p & k & Hlog & _ & Howner & Hsuccess & _ & _ & _
          & Hu1 & Htotal & _).
    exists u1. split; [exact Hu1|]. split.
    + destruct (handle_keeps_isolated addMonth e ep uid u0 d Hid)
        as (_ & (u1' & Hu1' & Hid1 & _) & _).
      { exists u0. repeat split; auto. }
      rewrite Hu1 in Hu1'. injection Hu1' as <-. congruence.
    + rewrite Hlog, List.filter_app. simpl. rewrite (matches_own_event uid ev Howner).
      rewrite countSuccessful_app. simpl. rewrite Hsuccess, Htotal. lia.
  - destruct (handle_failure addMonth e ep uid d u0 Hu Hid Hno)
      as ((u1 & Hu1 & Hid1 & Htotal & _) & Hev).
    exists u1. split; [exact Hu1|]. split; [exact Hid1|].
    destruct Hev as [-> | (ev & -> & Howner & Hst)]; [lia|].
    rewrite List.filter_app. simpl. rewrite (matches_own_event uid ev Howner).
    rewrite countSuccessful_app. simpl. rewrite (Hst Hsave Hans), Htotal. lia.
Qed.

(** X20: take requests of one user that are served one after the other,
    each of which can save its failure ([markFailed]'s save does not reject)
    and, for a batch, carries no [options.batchSize] below 1, so that its
    work settles.  Over any such run the number of successful events that
    the statistics of the user report grows by exactly as much as the user's
    lifetime call counter. *)
Theorem successful_calls_match_the_ledger
  (addMonth : Z -> Z) (uid : Z) (rs : list Request) (d : Db) (u0 : User.t)
  (Hu : users d !! uid = Some u0)
  (Hid : User.id u0 = uid)
  (Hsave : Forall (fun r => faults (rq_env r) CtSaveFailed = false) rs)
  (Hsettle : Forall (fun r =>
                       rq_endpoint r = Batch ->
                       forall b, optionsBatchSize (rq_env r) = Some b -> 1 <= b)
               rs) :
  let d' := serve addMonth uid rs d in
  let successful (x : Db) :=
    UsageStats.successfulCalls
      (UsageStats.statistics (UsageStats.getUsageStats (apicalls x) uid None)) in
  exists u1,
    users d' !! uid = Some u1
    /\ successful d' - successful d
       = User.totalCalls (User.usage u1) - User.totalCalls (User.usage u0).
Proof.
  intros d' successful. subst d' successful. cbn beta.
  rewrite !stats_successfulCalls. unfold serve.
  revert d u0 Hu Hid Hsettle.
  induction Hsave as [|r rs Hr _ IH]; intros d u0 Hu Hid Hsettle; simpl.
  - exists u0. split; [exact Hu | lia].
  - apply Forall_cons in Hsettle as [Hr' Hsettle].
    destruct (handle_accounts addMonth (rq_env r) (rq_endpoint r) uid d u0 Hu Hid
                Hr Hr')
      as (u1 & Hu1 & Hid1 & Hcount).
    destruct (IH _ u1 Hu1 Hid1 Hsettle) as (u2 & Hu2 & Hrest).
    exists u2. split; [exact Hu2|]. lia.
Qed.

Lemma successful_calls_match_the_ledger_witness :
  let ok := Fixture.request Fixture.noon Fixture.noFaults [] in
  let ko := Fixture.request (Fixture.noon + 1000) (Fixture.faultAt CtWork) [] in
  let u := Fixture.user "user" "basic" 3 in
  let d := Fixture.store u [Fixture.closedEvent] Fixture.catalog in
  let d' := serve Fixture.month30 7
              [mkRequest Summary ok; mkRequest Summary ko; mkRequest Summary ok] d in
  UsageStats.successfulCalls
    (UsageStats.statistics (UsageStats.getUsageStats (apicalls d') 7 None))
  - UsageStats.successfulCalls
      (UsageStats.statistics (UsageStats.getUsageStats (apicalls d) 7 None))
  = 2.
Proof.
  intros ok ko u d d'. subst d'.
  assert (Hsave : Forall (fun r => faults (rq_env r) CtSaveFailed = false)
            [mkRequest Summary ok; mkRequest Summary ko; mkRequest Summary ok])
    by (repeat constructor).
  assert (Hsettle : Forall (fun r =>
                              rq_endpoint r = Batch ->
                              forall b, optionsBatchSize (rq_env r) = Some b -> 1 <= b)
            [mkRequest Summary ok; mkRequest Summary ko; mkRequest Summary ok])
    by (repeat constructor; discriminate).
  destruct (successful_calls_match_the_ledger Fixture.month30 7 _ d u
              eq_refl eq_refl Hsave Hsettle) as (u1 & Hu1 & Heq).
  cbn beta in Heq. rewrite Heq.
  vm_compute in Hu1. injection Hu1 as <-. reflexivity.
Defined.
